(** * nvidia-power-control: the GPU inventory cache, the clamped power-limit
    setter and the mode dispatcher of [main.go], embedded over an abstract
    NVML gateway. *)

From Stdlib Require Import ZArith Lia Ascii.
From stdpp Require Import base decidable option list strings gmap.

Open Scope Z_scope.

(** ** Values exchanged with the NVML binding *)

(** [nvml.Return]: [nvml.SUCCESS] or some other driver status code. *)
Inductive Return :=
| SUCCESS
| ERROR (code : Z).

(** [nvml.EnableState] as returned by [DeviceGetPowerManagementMode]. *)
Inductive EnableState :=
| FEATURE_DISABLED
| FEATURE_ENABLED.

#[global] Instance Return_eq_dec : EqDecision Return.
Proof. solve_decision. Defined.

#[global] Instance EnableState_eq_dec : EqDecision EnableState.
Proof. solve_decision. Defined.

(** The errors built with [fmt.Errorf] in [main.go]; the argument is the
    driver status that [nvml.ErrorString] prints. *)
Inductive Error :=
| ErrInit (ret : Return)          (* "failed to initialize NVML: %v" *)
| ErrDeviceCount (ret : Return)   (* "failed to get device count: %v" *)
| ErrHandle (ret : Return)        (* "failed to get handle: %v" *)
| ErrPowerMode (ret : Return)     (* "failed to get power management mode: %v" *)
| ErrUnsupported                  (* "power management not supported" *)
| ErrCurrentLimit (ret : Return)  (* "failed to get current power limit: %v" *)
| ErrConstraints (ret : Return)   (* "failed to get power limit constraints: %v" *)
| ErrSetLimit (ret : Return).     (* "failed to set power limit: %v" *)

#[global] Instance Error_eq_dec : EqDecision Error.
Proof. solve_decision. Defined.

(** The lines written with [log.Printf]. *)
Inductive LogEntry :=
| LogInfoFailed (index : Z) (err : Error)
    (* "Warning: Failed to get info for GPU %d: %v" *)
| LogBelowMin (index limitWatts minW setW : Z)
    (* "GPU %d: Desired limit %d W below minimum %d W, setting to %d W" *)
| LogAboveMax (index limitWatts maxW setW : Z)
    (* "GPU %d: Desired limit %d W above maximum %d W, setting to %d W" *)
| LogSetFailed (index : Z) (err : Error)
    (* "GPU %d: Failed to set power limit: %v" *)
| LogNoSuchGPU (index : Z)
    (* "Warning: GPU %d specified in request doesn't exist" *)
| LogRefreshFailed (err : Error).
    (* "Warning: Failed to refresh GPU cache: %v" *)

#[global] Instance LogEntry_eq_dec : EqDecision LogEntry.
Proof. solve_decision. Defined.

(** ** Data model *)

(** [type GPUInfo struct]; the [uint32] fields are kept as [Z]. *)
Record GPUInfo := mkGPUInfo {
  Index : Z;
  Name : string;
  PowerLimit : Z;
  MinLimit : Z;
  MaxLimit : Z;
  PowerUsage : Z;
  Supported : bool
}.

#[global] Instance GPUInfo_eq_dec : EqDecision GPUInfo.
Proof. solve_decision. Defined.

(** The zero value [GPUInfo{}]. *)
Definition GPUInfo_zero : GPUInfo := mkGPUInfo 0 "" 0 0 0 0 false.

(** [type PowerLimitRequest struct]; [ManualLimits] is a Go map. *)
Record PowerLimitRequest := mkRequest {
  Mode : string;
  ReqPowerLimit : Z;
  ManualLimits : gmap Z Z
}.

(** ** Unsigned 32-bit arithmetic *)

Definition u32_modulus : Z := 2 ^ 32.

(** Multiplication of two [uint32] values, with Go's wrap-around. *)
Definition u32_mul (a b : Z) : Z := (a * b) mod u32_modulus.

(** Division of two [uint32] values; it cannot overflow. *)
Definition u32_div (a b : Z) : Z := a / b.

(** ** The device gateway *)

(** The part of [github.com/NVIDIA/go-nvml/pkg/nvml] that [main.go] calls.
    Every query returns the pair the Go binding returns; [Init], the limit
    write and [Shutdown] are the calls that may change the driver
    session. *)
Class Gateway := {
  Session : Type;
  Device : Type;
  nvml_Init : Session -> Return * Session;
  nvml_DeviceGetCount : Session -> Z * Return;
  nvml_DeviceGetHandleByIndex : Session -> Z -> Device * Return;
  nvml_DeviceGetName : Session -> Device -> string * Return;
  nvml_DeviceGetPowerManagementMode : Session -> Device -> EnableState * Return;
  nvml_DeviceGetPowerManagementLimit : Session -> Device -> Z * Return;
  nvml_DeviceGetPowerManagementLimitConstraints :
    Session -> Device -> Z * Z * Return;
  nvml_DeviceGetPowerUsage : Session -> Device -> Z * Return;
  nvml_DeviceSetPowerManagementLimit :
    Session -> Device -> Z -> Return * Session;
  nvml_Shutdown : Session -> Return * Session;
  (* the binding converts a C [unsigned int] to [int] *)
  nvml_DeviceGetCount_nonneg : forall g, 0 <= fst (nvml_DeviceGetCount g)
}.

Section Program.

Context {G : Gateway}.

(** The process state: the driver session, the global [gpuCache], the log
    stream, and two histories kept for the proofs: the limit writes issued
    to the driver and the calls made to [setPowerLimit] by the dispatcher
    (arguments and returned pair). *)
Record World := mkWorld {
  hw : Session;
  gpuCache : list GPUInfo;
  logged : list LogEntry;
  writes : list (Device * Z);
  calls : list (Z * Z * (GPUInfo * option Error))
}.

Definition set_hw (g : Session) (s : World) : World :=
  mkWorld g (gpuCache s) (logged s) (writes s) (calls s).

Definition set_gpuCache (c : list GPUInfo) (s : World) : World :=
  mkWorld (hw s) c (logged s) (writes s) (calls s).

Definition log_Printf (e : LogEntry) (s : World) : World :=
  mkWorld (hw s) (gpuCache s) (logged s ++ [e]) (writes s) (calls s).

Definition note_write (d : Device) (mw : Z) (s : World) : World :=
  mkWorld (hw s) (gpuCache s) (logged s) (writes s ++ [(d, mw)]) (calls s).

Definition note_call (index w : Z) (r : GPUInfo * option Error) (s : World)
  : World :=
  mkWorld (hw s) (gpuCache s) (logged s) (writes s) (calls s ++ [(index, w, r)]).

(** ** [getGPUInfo] *)

Definition getGPUInfo (g : Session) (index : Z) : GPUInfo * option Error :=
  let info := mkGPUInfo index "" 0 0 0 0 false in
  let '(device, ret) := nvml_DeviceGetHandleByIndex g index in
  if decide (ret <> SUCCESS) then (info, Some (ErrHandle ret)) else
  let '(name, ret) := nvml_DeviceGetName g device in
  let name := if decide (ret <> SUCCESS) then "Unknown"%string else name in
  let info := mkGPUInfo index name 0 0 0 0 false in
  let '(mode, ret) := nvml_DeviceGetPowerManagementMode g device in
  if decide (ret <> SUCCESS) then (info, Some (ErrPowerMode ret)) else
  let supported := bool_decide (mode = FEATURE_ENABLED) in
  let info := mkGPUInfo index name 0 0 0 0 supported in
  if negb supported then (info, None) else
  let '(currentLimit, ret) := nvml_DeviceGetPowerManagementLimit g device in
  if decide (ret <> SUCCESS) then (info, Some (ErrCurrentLimit ret)) else
  let info := mkGPUInfo index name (u32_div currentLimit 1000) 0 0 0 supported in
  let '(minLimit, maxLimit, ret) :=
    nvml_DeviceGetPowerManagementLimitConstraints g device in
  if decide (ret <> SUCCESS) then (info, Some (ErrConstraints ret)) else
  let info := mkGPUInfo index name (u32_div currentLimit 1000)
                (u32_div minLimit 1000) (u32_div maxLimit 1000) 0 supported in
  let '(power, ret) := nvml_DeviceGetPowerUsage g device in
  let info := if decide (ret = SUCCESS)
              then mkGPUInfo index name (u32_div currentLimit 1000)
                     (u32_div minLimit 1000) (u32_div maxLimit 1000)
                     (u32_div power 1000) supported
              else info in
  (info, None).

(** ** [setPowerLimit] *)

(** Lines 186-195: the clamp, with the line it logs. *)
Definition clamp (index limitWatts minLimit maxLimit limitMW : Z)
  : Z * option LogEntry :=
  if decide (limitMW < minLimit) then
    (minLimit, Some (LogBelowMin index limitWatts (u32_div minLimit 1000)
                       (u32_div minLimit 1000)))
  else if decide (limitMW > maxLimit) then
    (maxLimit, Some (LogAboveMax index limitWatts (u32_div maxLimit 1000)
                       (u32_div maxLimit 1000)))
  else (limitMW, None).

Definition setPowerLimit (index limitWatts : Z) (s : World)
  : (GPUInfo * option Error) * World :=
  let '(device, ret) := nvml_DeviceGetHandleByIndex (hw s) index in
  if decide (ret <> SUCCESS) then ((GPUInfo_zero, Some (ErrHandle ret)), s) else
  let '(mode, ret) := nvml_DeviceGetPowerManagementMode (hw s) device in
  if decide (ret <> SUCCESS) then ((GPUInfo_zero, Some (ErrPowerMode ret)), s) else
  if decide (mode <> FEATURE_ENABLED) then ((GPUInfo_zero, Some ErrUnsupported), s) else
  let '(minLimit, maxLimit, ret) :=
    nvml_DeviceGetPowerManagementLimitConstraints (hw s) device in
  if decide (ret <> SUCCESS) then ((GPUInfo_zero, Some (ErrConstraints ret)), s) else
  let limitMW := u32_mul limitWatts 1000 in
  let '(limitMW, line) := clamp index limitWatts minLimit maxLimit limitMW in
  let s := match line with Some e => log_Printf e s | None => s end in
  let '(ret, g) := nvml_DeviceSetPowerManagementLimit (hw s) device limitMW in
  let s := set_hw g (note_write device limitMW s) in
  if decide (ret <> SUCCESS) then ((GPUInfo_zero, Some (ErrSetLimit ret)), s) else
  (getGPUInfo (hw s) index, s).

(** ** [initNVML]: the cache refresh *)

(** Lines 95-102: [for i := 0; i < count; i++], with [n] iterations left.
    [i] stays below [len(gpuCache)], so the indexed store is in range. *)
Fixpoint refresh_loop (n : nat) (i : Z) (s : World) : World :=
  match n with
  | O => s
  | S n' =>
      let '(gpuInfo, err) := getGPUInfo (hw s) i in
      match err with
      | Some e => refresh_loop n' (i + 1) (log_Printf (LogInfoFailed i e) s)
      | None =>
          refresh_loop n' (i + 1)
            (set_gpuCache (<[Z.to_nat i := gpuInfo]> (gpuCache s)) s)
      end
  end.

Definition initNVML (s : World) : option Error * World :=
  let '(ret, g) := nvml_Init (hw s) in
  let s := set_hw g s in
  if decide (ret <> SUCCESS) then (Some (ErrInit ret), s) else
  let '(count, ret) := nvml_DeviceGetCount (hw s) in
  if decide (ret <> SUCCESS) then (Some (ErrDeviceCount ret), s) else
  let s := set_gpuCache (replicate (Z.to_nat count) GPUInfo_zero) s in
  (None, refresh_loop (Z.to_nat count) 0 s).

(** ** [setPowerLimitsHandler]: the mode dispatcher *)

(** A call of [setPowerLimit] from the dispatcher, entered in [calls]. *)
Definition call_setPowerLimit (index limitWatts : Z) (s : World)
  : (GPUInfo * option Error) * World :=
  let '(r, s) := setPowerLimit index limitWatts s in
  (r, note_call index limitWatts r s).

(** Lines 291-298: [for i := 0; i < count; i++], with [n] iterations left. *)
Fixpoint all_loop (n : nat) (i : Z) (powerLimit : Z)
    (updatedGPUs : list GPUInfo) (s : World) : list GPUInfo * World :=
  match n with
  | O => (updatedGPUs, s)
  | S n' =>
      let '((updatedInfo, err), s) := call_setPowerLimit i powerLimit s in
      match err with
      | Some e =>
          all_loop n' (i + 1) powerLimit updatedGPUs
            (log_Printf (LogSetFailed i e) s)
      | None =>
          all_loop n' (i + 1) powerLimit (updatedGPUs ++ [updatedInfo]) s
      end
  end.

(** Lines 301-312: [for gpuIndex, powerLimit := range request.ManualLimits];
    [entries] lists the map in the order this run of the range visits it. *)
Fixpoint manual_loop (entries : list (Z * Z)) (count : Z)
    (updatedGPUs : list GPUInfo) (s : World) : list GPUInfo * World :=
  match entries with
  | [] => (updatedGPUs, s)
  | (gpuIndex, powerLimit) :: rest =>
      if decide (0 <= gpuIndex /\ gpuIndex < count) then
        let '((updatedInfo, err), s) :=
          call_setPowerLimit gpuIndex powerLimit s in
        match err with
        | Some e =>
            manual_loop rest count updatedGPUs
              (log_Printf (LogSetFailed gpuIndex e) s)
        | None => manual_loop rest count (updatedGPUs ++ [updatedInfo]) s
        end
      else
        manual_loop rest count updatedGPUs (log_Printf (LogNoSuchGPU gpuIndex) s)
  end.

(** Lines 286-317, "Process based on mode": [None] is the final [else]
    branch, which answers "Invalid mode" and returns. *)
Definition dispatch (request : PowerLimitRequest) (entries : list (Z * Z))
    (count : Z) (s : World) : option (list GPUInfo) * World :=
  if decide (Mode request = "all"%string) then
    let '(updatedGPUs, s) :=
      all_loop (Z.to_nat count) 0 (ReqPowerLimit request) [] s in
    (Some updatedGPUs, s)
  else if decide (Mode request = "manual"%string) then
    let '(updatedGPUs, s) := manual_loop entries count [] s in
    (Some updatedGPUs, s)
  else (None, s).

(** What a handler writes to the [http.ResponseWriter]. *)
Inductive Body :=
| InvalidRequestFormat            (* {"error": "Invalid request format"} *)
| CountFailed (ret : Return)      (* {"error": "Failed to get device count: ..."} *)
| InvalidMode                     (* {"error": "Invalid mode (must be 'all' or 'manual')"} *)
| UpdatedGPUs (l : list GPUInfo).

Record Response := mkResponse { status : Z; body : Body }.

(** [decoded] is the outcome of [json.NewDecoder(r.Body).Decode(&request)];
    [entries] is the visiting order of the map range, as in [manual_loop]. *)
Definition setPowerLimitsHandler (decoded : option PowerLimitRequest)
    (entries : list (Z * Z)) (s : World) : Response * World :=
  match decoded with
  | None => (mkResponse 400 InvalidRequestFormat, s)
  | Some request =>
      let '(count, ret) := nvml_DeviceGetCount (hw s) in
      if decide (ret <> SUCCESS) then (mkResponse 500 (CountFailed ret), s) else
      let '(updated, s) := dispatch request entries count s in
      match updated with
      | None => (mkResponse 400 InvalidMode, s)
      | Some updatedGPUs =>
          let '(err, s) := initNVML s in
          let s := match err with
                   | Some e => log_Printf (LogRefreshFailed e) s
                   | None => s
                   end in
          (mkResponse 200 (UpdatedGPUs updatedGPUs), s)
      end
  end.

End Program.

Arguments World : clear implicits.
Arguments World {G}.

(** ** A mock gateway that echoes written limits exactly *)

(** One simulated device: what each query answers, and whether the driver
    accepts a limit write. *)
Record MockDevice := mkMockDevice {
  md_handle : Return;
  md_name : string * Return;
  md_mode : EnableState * Return;
  md_limit : Z * Return;
  md_constraints : Z * Z * Return;
  md_usage : Z * Return;
  md_set : Return
}.

Record Mock := mkMock {
  mk_init : Return;
  mk_count : Return;
  mk_devices : list MockDevice
}.

Definition ERROR_INVALID_ARGUMENT : Return := ERROR 2.

Definition mock_read {A} (zero : A) (f : MockDevice -> A * Return)
    (m : Mock) (d : nat) : A * Return :=
  match mk_devices m !! d with
  | Some dev => f dev
  | None => (zero, ERROR_INVALID_ARGUMENT)
  end.

Definition mock_handle (m : Mock) (index : Z) : nat * Return :=
  if decide (0 <= index) then
    mock_read O (fun dev => (Z.to_nat index, md_handle dev)) m (Z.to_nat index)
  else (O, ERROR_INVALID_ARGUMENT).

(** An accepted write stores exactly the value written. *)
Definition mock_set (m : Mock) (d : nat) (mw : Z) : Return * Mock :=
  match mk_devices m !! d with
  | Some dev =>
      if decide (md_set dev = SUCCESS) then
        (SUCCESS,
         mkMock (mk_init m) (mk_count m)
           (<[d := mkMockDevice (md_handle dev) (md_name dev) (md_mode dev)
                     (mw, snd (md_limit dev)) (md_constraints dev)
                     (md_usage dev) (md_set dev)]> (mk_devices m)))
      else (md_set dev, m)
  | None => (ERROR_INVALID_ARGUMENT, m)
  end.

#[global, program] Instance MockGateway : Gateway := {|
  Session := Mock;
  Device := nat;
  nvml_Init m := (mk_init m, m);
  nvml_DeviceGetCount m := (Z.of_nat (length (mk_devices m)), mk_count m);
  nvml_DeviceGetHandleByIndex := mock_handle;
  nvml_DeviceGetName := mock_read ""%string md_name;
  nvml_DeviceGetPowerManagementMode := mock_read FEATURE_DISABLED md_mode;
  nvml_DeviceGetPowerManagementLimit := mock_read 0 md_limit;
  nvml_DeviceGetPowerManagementLimitConstraints :=
    mock_read (0, 0) (fun dev => md_constraints dev);
  nvml_DeviceGetPowerUsage := mock_read 0 md_usage;
  nvml_DeviceSetPowerManagementLimit := mock_set;
  nvml_Shutdown m := (SUCCESS, m)
|}.
Next Obligation. intros m. simpl. lia. Qed.

(** A healthy device with the given name, limit and bounds (milliwatts). *)
Definition healthy (name : string) (limit lo hi : Z) : MockDevice :=
  mkMockDevice SUCCESS (name, SUCCESS) (FEATURE_ENABLED, SUCCESS)
    (limit, SUCCESS) (lo, hi, SUCCESS) (55000, SUCCESS) SUCCESS.

Definition mock_world (devs : list MockDevice) : World (G := MockGateway) :=
  mkWorld (mkMock SUCCESS SUCCESS devs) [] [] [] [].

(** ** Reading the call history *)

(** The records of the calls that returned no error, in call order. *)
Definition successes (outs : list (Z * Z * (GPUInfo * option Error)))
  : list GPUInfo :=
  omap (fun c => match snd (snd c) with
                 | None => Some (fst (snd c))
                 | Some _ => None
                 end) outs.

(** A call that returned no error returned a record of the device asked. *)
Definition call_sound (c : Z * Z * (GPUInfo * option Error)) : Prop :=
  snd (snd c) = None -> Index (fst (snd c)) = fst (fst c).

(** The shape of what either loop leaves behind, for the arguments [args]
    it passed to the setter, in order. *)
Definition loop_outcome {G : Gateway} (s s' : World) (acc res : list GPUInfo)
    (args : list (Z * Z)) (outs : list (Z * Z * (GPUInfo * option Error))) : Prop :=
  calls s' = calls s ++ outs /\
  outs.*1 = args /\
  res = acc ++ successes outs /\
  Forall call_sound outs /\
  Forall (fun c => exists s0, snd c = fst (setPowerLimit (fst (fst c))
                                            (snd (fst c)) s0)) outs /\
  logged s `prefix_of` logged s' /\
  (forall index w info e,
     (index, w, (info, Some e)) ∈ outs -> LogSetFailed index e ∈ logged s').

(** The milliwatt value the specification asks the setter to write:
    exact arithmetic on [w * 1000], then the clamp into [minMW, maxMW]. *)
Definition spec_written (minMW maxMW w : Z) : Z :=
  if decide (w * 1000 < minMW) then minMW
  else if decide (w * 1000 > maxMW) then maxMW
  else w * 1000.

(** A session in which every device whose current limit and constraints can
    both be read reports the limit within the constraints. *)
Definition limit_within_constraints {G : Gateway} (g : Session) : Prop :=
  forall d cur lo hi,
    nvml_DeviceGetPowerManagementLimit g d = (cur, SUCCESS) ->
    nvml_DeviceGetPowerManagementLimitConstraints g d = (lo, hi, SUCCESS) ->
    lo <= cur <= hi.

(** ** Worlds used in the examples *)

(** One board with bounds 100 W .. 300 W, currently at 250 W. *)
Definition one_gpu : World (G := MockGateway) :=
  mock_world [healthy "GPU0" 250000 100000 300000].

(** A device without power management. *)
Definition no_power_mgmt : MockDevice :=
  mkMockDevice SUCCESS ("Tesla"%string, SUCCESS) (FEATURE_DISABLED, SUCCESS)
    (0, ERROR 3) (0, 0, ERROR 3) (0, ERROR 3) (ERROR 3).

(** A supported device whose current-limit read fails. *)
Definition limit_unreadable : MockDevice :=
  mkMockDevice SUCCESS ("GPU1"%string, SUCCESS) (FEATURE_ENABLED, SUCCESS)
    (0, ERROR 999) (100000, 300000, SUCCESS) (55000, SUCCESS) SUCCESS.

(** A supported device whose limit writes the driver rejects. *)
Definition write_rejected : MockDevice :=
  mkMockDevice SUCCESS ("GPU1"%string, SUCCESS) (FEATURE_ENABLED, SUCCESS)
    (250000, SUCCESS) (100000, 300000, SUCCESS) (55000, SUCCESS) (ERROR 4).

Definition two_gpus_one_unreadable : World (G := MockGateway) :=
  mock_world [healthy "GPU0" 250000 100000 300000; limit_unreadable].

Definition three_gpus_middle_rejects : World (G := MockGateway) :=
  mock_world [healthy "GPU0" 250000 100000 300000; write_rejected;
              healthy "GPU2" 200000 150000 350000].

Definition req_all (w : Z) : PowerLimitRequest := mkRequest "all" w ∅.

Definition req_manual (m : gmap Z Z) : PowerLimitRequest :=
  mkRequest "manual" 0 m.

(** Manual limits naming two boards that exist and one that does not. *)
Definition three_limits : gmap Z Z :=
  <[0 := 150]> (<[1 := 180]> (<[7 := 200]> ∅)).

(** ** Strings and numbers read from the command line *)

(** [strings.Split(s, sep)] for a one-byte separator, which is how
    [parseGPUParam] calls it ("=" and ":"): the pieces of [s] between the
    occurrences of [sep]; the empty string gives one empty piece. *)
Fixpoint Split (s : string) (sep : ascii) : list string :=
  match s with
  | EmptyString => [EmptyString]
  | String c rest =>
      if decide (c = sep) then EmptyString :: Split rest sep
      else match Split rest sep with
           | piece :: pieces => String c piece :: pieces
           | [] => [String c EmptyString]
           end
  end.

(** [strings.HasPrefix(s, prefix)]. *)
Definition HasPrefix (s prefix : string) : bool := String.prefix prefix s.

Definition digit_of (c : ascii) : option Z :=
  let n := Z.of_N (Ascii.N_of_ascii c) in
  if decide (48 <= n /\ n <= 57) then Some (n - 48) else None.

(** The value of a run of decimal digits, [None] at the first other byte. *)
Fixpoint parse_digits (s : string) (acc : Z) : option Z :=
  match s with
  | EmptyString => Some acc
  | String c rest =>
      match digit_of c with
      | Some d => parse_digits rest (acc * 10 + d)
      | None => None
      end
  end.

(** [strconv.ParseUint(s, 10, bitSize)]: [None] stands for a non-nil error
    (empty input, a byte that is no digit, or a value of [2^bitSize] or
    more). *)
Definition ParseUint (s : string) (bitSize : Z) : option Z :=
  match s with
  | EmptyString => None
  | _ =>
      match parse_digits s 0 with
      | Some v => if decide (v < 2 ^ bitSize) then Some v else None
      | None => None
      end
  end.

(** [strconv.Atoi(s)] with a 64-bit [int]: an optional sign, then digits;
    [None] stands for a non-nil error (no digits, a byte that is no digit,
    or a value outside [-2^63, 2^63 - 1]). *)
Definition Atoi (s : string) : option Z :=
  match s with
  | EmptyString => None
  | String c rest =>
      if decide (c = "+"%char) then
        match ParseUint rest 64 with
        | Some v => if decide (v < 2 ^ 63) then Some v else None
        | None => None
        end
      else if decide (c = "-"%char) then
        match ParseUint rest 64 with
        | Some v => if decide (v <= 2 ^ 63) then Some (- v) else None
        | None => None
        end
      else
        match ParseUint s 64 with
        | Some v => if decide (v < 2 ^ 63) then Some v else None
        | None => None
        end
  end.

(** The errors of [parseGPUParam]. *)
Inductive ParamError :=
| InvalidFormat (param : string)     (* "invalid parameter format: %s" *)
| InvalidGPUParam (param : string)   (* "invalid GPU parameter: %s (expected --gpu=index:limit)" *)
| InvalidIndex (text : string)       (* "invalid GPU index: %s" *)
| InvalidLimit (text : string).      (* "invalid power limit: %s" *)

(** [parseGPUParam]: the index, the limit converted with [uint32(limit)],
    and the error. *)
Definition parseGPUParam (param : string) : Z * Z * option ParamError :=
  match Split param "="%char with
  | [part0; part1] =>
      if negb (HasPrefix part0 "--gpu") then (-1, 0, Some (InvalidFormat param))
      else
        match Split part1 ":"%char with
        | [gpu0; gpu1] =>
            match Atoi gpu0 with
            | None => (-1, 0, Some (InvalidIndex gpu0))
            | Some index =>
                match ParseUint gpu1 32 with
                | None => (-1, 0, Some (InvalidLimit gpu1))
                | Some limit => (index, limit mod u32_modulus, None)
                end
            end
        | _ => (-1, 0, Some (InvalidGPUParam param))
        end
  | _ => (-1, 0, Some (InvalidFormat param))
  end.

(** ** Configuration and terminal output *)

(** [type Config struct]. *)
Record Config := mkConfig {
  cfgMode : string;
  cfgPowerLimit : Z;
  cfgManualLimits : gmap Z Z;
  cfgAPIKey : string;
  cfgAPIPort : Z;
  cfgStartAPIServer : bool
}.

(** What [main] and [applyConfigSettings] print with [fmt], and the lines
    the start-up path writes with [log]. *)
Inductive Printed :=
| PrintInitFailed (ret : Return)      (* "Failed to initialize NVML: %v" *)
| PrintCountFailed (ret : Return)     (* "Failed to get device count: %v" *)
| PrintParamError (e : ParamError)    (* fmt.Println(err) *)
| PrintHelp                           (* printHelp() *)
| PrintSetFailed (index : Z) (e : Error)
    (* "GPU %d: Failed to set power limit: %v" *)
| PrintLimitSet (index : Z) (name : string) (limit : Z)
    (* "GPU %d (%s): Power limit set to %d W" *)
| PrintNoSuchGPU (index : Z)          (* "Error: GPU %d doesn't exist" *)
| PrintInvalidLimit (text : string)
    (* "Invalid power limit: %s (must be a positive integer)" *)
| PrintSettingAll (watts : Z)         (* "Setting all GPUs to %d watts" *)
| PrintConfigNoSuchGPU (index : Z)
    (* "Warning: GPU %d specified in config doesn't exist" *)
| PrintInvalidMode (mode : string)
    (* "Invalid mode in config: %s (must be 'all' or 'manual')" *)
| PrintNoConfig
    (* "No command line arguments and no config.json found." and the
       line after it *)
| PrintApplying                       (* "Applying power settings from config.json" *)
| PrintNeedAPIKey
    (* "Error: API key is required to start API server" and the line
       after it *)
| PrintStartingServerMode             (* "Starting API server mode" *)
| PrintAppliedExiting                 (* "Applied settings from config.json, exiting" *)
| FatalCache (e : Error)              (* log.Fatalf("Failed to initialize NVML cache: %v") *)
| LogStartingServer (port : Z)        (* log.Printf("Starting API server on port %d") *)
| FatalListen (port : Z).             (* log.Fatal(http.ListenAndServe(":port", router)) *)

(** How [main] ends: [os.Exit(1)] (also through [log.Fatalf] and
    [log.Fatal]; the deferred [nvml.Shutdown] does not run), a normal
    return (after which the deferred [nvml.Shutdown] has run), or
    [http.ListenAndServe] serving on a port with the global [config] set. *)
Inductive Outcome :=
| Exited (code : Z)
| Returned
| Serving (config : Config) (port : Z).

(** ** The read routes and the key check *)

Inductive ReadBody :=
| RefreshError (e : Error)        (* {"error": err.Error()} *)
| InvalidGPUIndex                 (* {"error": "Invalid GPU index"} *)
| IndexOutOfRange                 (* {"error": "GPU index out of range"} *)
| AllGPUs (l : list GPUInfo)      (* the whole gpuCache *)
| OneGPU (info : GPUInfo).        (* gpuCache[index] *)

Record ReadResponse := mkReadResponse { rstatus : Z; rbody : ReadBody }.

(** What a route behind [apiKeyMiddleware] answers: 401 with
    {"error": "Invalid API key"}, or what the wrapped handler answers. *)
Inductive Guarded (R : Type) :=
| Unauthorized
| Passed (r : R).

Arguments Unauthorized {R}.
Arguments Passed {R} r.

Section Surfaces.

Context {G : Gateway}.

(** [apiKeyMiddleware]: [apiKey] is [r.Header.Get("X-API-Key")], the empty
    string when the header is absent; [configKey] is [config.APIKey]. *)
Definition apiKeyMiddleware {R} (configKey : string)
    (next : World -> R * World) (apiKey : string) (s : World)
  : Guarded R * World :=
  if decide (apiKey <> configKey) then (Unauthorized, s)
  else let '(r, s) := next s in (Passed r, s).

Definition getGPUsHandler (s : World) : ReadResponse * World :=
  let '(err, s) := initNVML s in
  match err with
  | Some e => (mkReadResponse 500 (RefreshError e), s)
  | None => (mkReadResponse 200 (AllGPUs (gpuCache s)), s)
  end.

(** [indexStr] is [mux.Vars(r)["index"]]. *)
Definition getGPUHandler (indexStr : string) (s : World)
  : ReadResponse * World :=
  match Atoi indexStr with
  | None => (mkReadResponse 400 InvalidGPUIndex, s)
  | Some index =>
      let '(err, s) := initNVML s in
      match err with
      | Some e => (mkReadResponse 500 (RefreshError e), s)
      | None =>
          if decide (index < 0 \/ index >= Z.of_nat (length (gpuCache s)))
          then (mkReadResponse 404 IndexOutOfRange, s)
          else
            match gpuCache s !! Z.to_nat index with
            | Some info => (mkReadResponse 200 (OneGPU info), s)
            | None => (mkReadResponse 404 IndexOutOfRange, s)
            end
      end
  end.

(** The routes that [startAPIServer] registers on the "/api" subrouter,
    all of them behind [apiKeyMiddleware]. *)
Inductive Route :=
| GetGPUs                                   (* GET /gpus *)
| GetGPU (indexStr : string)                (* GET /gpus/{index} *)
| PostPower (decoded : option PowerLimitRequest) (entries : list (Z * Z)).
                                            (* POST /power *)

Inductive RouteReply :=
| ReadReply (r : ReadResponse)
| PowerReply (r : Response).

Definition route_handler (route : Route) (s : World) : RouteReply * World :=
  match route with
  | GetGPUs => let '(r, s) := getGPUsHandler s in (ReadReply r, s)
  | GetGPU indexStr =>
      let '(r, s) := getGPUHandler indexStr s in (ReadReply r, s)
  | PostPower decoded entries =>
      let '(r, s) := setPowerLimitsHandler decoded entries s in (PowerReply r, s)
  end.

(** A request to the server: [config] is the global set by [main]. *)
Definition serve (config : Config) (apiKey : string) (route : Route)
    (s : World) : Guarded RouteReply * World :=
  apiKeyMiddleware (cfgAPIKey config) (route_handler route) apiKey s.

(** ** [applyConfigSettings] and [main] *)

(** Lines 381-388 and 490-498, the same loop in [applyConfigSettings] and
    in [main]: [for i := 0; i < count; i++], with [n] iterations left. *)
Fixpoint cli_all_loop (n : nat) (i : Z) (powerLimit : Z)
    (out : list Printed) (s : World) : list Printed * World :=
  match n with
  | O => (out, s)
  | S n' =>
      let '((gpuInfo, err), s) := call_setPowerLimit i powerLimit s in
      match err with
      | Some e =>
          cli_all_loop n' (i + 1) powerLimit (out ++ [PrintSetFailed i e]) s
      | None =>
          cli_all_loop n' (i + 1) powerLimit
            (out ++ [PrintLimitSet (Index gpuInfo) (Name gpuInfo)
                       (PowerLimit gpuInfo)]) s
      end
  end.

(** Lines 391-403: [for gpuIndex, powerLimit := range config.ManualLimits],
    over the entries in the order this run of the range visits them. *)
Fixpoint config_manual_loop (entries : list (Z * Z)) (count : Z)
    (out : list Printed) (s : World) : list Printed * World :=
  match entries with
  | [] => (out, s)
  | (gpuIndex, powerLimit) :: rest =>
      if decide (0 <= gpuIndex /\ gpuIndex < count) then
        let '((gpuInfo, err), s) :=
          call_setPowerLimit gpuIndex powerLimit s in
        match err with
        | Some e =>
            config_manual_loop rest count
              (out ++ [PrintSetFailed gpuIndex e]) s
        | None =>
            config_manual_loop rest count
              (out ++ [PrintLimitSet (Index gpuInfo) (Name gpuInfo)
                         (PowerLimit gpuInfo)]) s
        end
      else
        config_manual_loop rest count (out ++ [PrintConfigNoSuchGPU gpuIndex]) s
  end.

Definition applyConfigSettings (config : Config) (entries : list (Z * Z))
    (count : Z) (out : list Printed) (s : World) : list Printed * World :=
  if decide (cfgMode config = "all"%string) then
    cli_all_loop (Z.to_nat count) 0 (cfgPowerLimit config)
      (out ++ [PrintSettingAll (cfgPowerLimit config)]) s
  else if decide (cfgMode config = "manual"%string) then
    config_manual_loop entries count out s
  else (out ++ [PrintInvalidMode (cfgMode config)], s).

(** Lines 456-478: [for _, arg := range os.Args[1:]]; the flag returned is
    true when the loop ended in [os.Exit(1)]. *)
Fixpoint gpu_args_loop (args : list string) (count : Z)
    (out : list Printed) (s : World) : bool * list Printed * World :=
  match args with
  | [] => (false, out, s)
  | arg :: rest =>
      if HasPrefix arg "--gpu" then
        let '(index, limit, err) := parseGPUParam arg in
        match err with
        | Some e => (true, out ++ [PrintParamError e; PrintHelp], s)
        | None =>
            if decide (0 <= index /\ index < count) then
              let '((gpuInfo, err), s) := call_setPowerLimit index limit s in
              match err with
              | Some e =>
                  gpu_args_loop rest count (out ++ [PrintSetFailed index e]) s
              | None =>
                  gpu_args_loop rest count
                    (out ++ [PrintLimitSet (Index gpuInfo) (Name gpuInfo)
                               (PowerLimit gpuInfo)]) s
              end
            else gpu_args_loop rest count (out ++ [PrintNoSuchGPU index]) s
        end
      else gpu_args_loop rest count out s
  end.

(** [startAPIServer] up to the call of [http.ListenAndServe]: the port. *)
Definition server_port (config : Config) : Z :=
  if decide (cfgAPIPort config = 0) then 8080 else cfgAPIPort config.

(** The deferred [nvml.Shutdown()] of [main], run when [main] returns. *)
Definition deferred_Shutdown (s : World) : World :=
  set_hw (snd (nvml_Shutdown (hw s))) s.

(** [main]: [args] is [os.Args[1:]], [loaded] is what [loadConfig] returns
    ([None] for a non-nil error), [entries] the visiting order of the
    config's manual limits, and [listen port] tells whether
    [http.ListenAndServe] gets to serve on that port; when it returns
    instead, [log.Fatal] ends the program. *)
Definition main (args : list string) (loaded : option Config)
    (entries : list (Z * Z)) (listen : Z -> bool) (s : World)
  : Outcome * list Printed * World :=
  let '(ret, g) := nvml_Init (hw s) in
  let s := set_hw g s in
  if decide (ret <> SUCCESS) then (Exited 1, [PrintInitFailed ret], s) else
  let '(count, ret) := nvml_DeviceGetCount (hw s) in
  if decide (ret <> SUCCESS) then (Exited 1, [PrintCountFailed ret], s) else
  match args with
  | arg1 :: _ =>
      if HasPrefix arg1 "--gpu" then
        let '(exited, out, s) := gpu_args_loop args count [] s in
        if exited then (Exited 1, out, s)
        else (Returned, out, deferred_Shutdown s)
      else
        match ParseUint arg1 32 with
        | None => (Exited 1, [PrintInvalidLimit arg1; PrintHelp], s)
        | Some desiredW =>
            if decide (desiredW = 0)
            then (Exited 1, [PrintInvalidLimit arg1; PrintHelp], s)
            else
              let '(out, s) :=
                cli_all_loop (Z.to_nat count) 0 (desiredW mod u32_modulus)
                  [PrintSettingAll desiredW] s in
              (Returned, out, deferred_Shutdown s)
        end
  | [] =>
      match loaded with
      | None => (Exited 1, [PrintNoConfig; PrintHelp], s)
      | Some cfg =>
          let '(out, s) :=
            applyConfigSettings cfg entries count [PrintApplying] s in
          if cfgStartAPIServer cfg then
            if decide (cfgAPIKey cfg = ""%string)
            then (Exited 1, out ++ [PrintNeedAPIKey], s)
            else
              let '(err, s) := initNVML s in
              match err with
              | Some e => (Exited 1, out ++ [FatalCache e], s)
              | None =>
                  if listen (server_port cfg) then
                    (Serving cfg (server_port cfg),
                     out ++ [PrintStartingServerMode;
                             LogStartingServer (server_port cfg)], s)
                  else
                    (Exited 1,
                     out ++ [PrintStartingServerMode;
                             LogStartingServer (server_port cfg);
                             FatalListen (server_port cfg)], s)
              end
          else (Returned, out ++ [PrintAppliedExiting], deferred_Shutdown s)
      end
  end.

(** The calls [setPowerLimit index w] for the pairs of [args], one after
    the other, each on the world the one before it left: what each call
    returned, and the world after the last. *)
Fixpoint setter_run (args : list (Z * Z)) (s : World)
  : list (Z * Z * (GPUInfo * option Error)) * World :=
  match args with
  | [] => ([], s)
  | (index, w) :: rest =>
      let '(r, s1) := setPowerLimit index w s in
      let '(outs, s2) := setter_run rest s1 in
      ((index, w, r) :: outs, s2)
  end.

(** Two worlds with the same driver session, cache and writes issued. *)
Definition same_hardware (s1 s2 : World) : Prop :=
  hw s1 = hw s2 /\ gpuCache s1 = gpuCache s2 /\ writes s1 = writes s2.

(** Two worlds with the same driver session, cache, writes issued and
    setter calls made; they may differ in the log. *)
Definition agree (s1 s2 : World) : Prop :=
  hw s1 = hw s2 /\ gpuCache s1 = gpuCache s2 /\
  writes s1 = writes s2 /\ calls s1 = calls s2.

End Surfaces.

(** The request that carries the mode and limits of a config. *)
Definition request_of_config (config : Config) : PowerLimitRequest :=
  mkRequest (cfgMode config) (cfgPowerLimit config) (cfgManualLimits config).

(** The (index, limit) pairs of the "--gpu" arguments that come before the
    first one [parseGPUParam] rejects, and whether there is such a one;
    arguments without the "--gpu" prefix are passed over. *)
Fixpoint gpu_requests (args : list string) : list (Z * Z) * bool :=
  match args with
  | [] => ([], false)
  | arg :: rest =>
      if HasPrefix arg "--gpu" then
        match parseGPUParam arg with
        | (index, limit, None) =>
            ((index, limit) :: fst (gpu_requests rest), snd (gpu_requests rest))
        | (_, _, Some _) => ([], true)
        end
      else gpu_requests rest
  end.

(** A config that asks for the server, with a key. *)
Definition server_config : Config :=
  mkConfig "all" 200 ∅ "secret" 0 true.

(** A simulated device that answers every query read by the setter and by
    the limit part of the reader, has power management enabled and accepts
    limit writes. *)
Definition accepting (dev : MockDevice) : Prop :=
  md_handle dev = SUCCESS /\ md_mode dev = (FEATURE_ENABLED, SUCCESS) /\
  snd (md_limit dev) = SUCCESS /\ snd (md_constraints dev) = SUCCESS /\
  md_set dev = SUCCESS.

(** The device after the driver has stored the limit [mw]. *)
Definition with_limit (dev : MockDevice) (mw : Z) : MockDevice :=
  mkMockDevice (md_handle dev) (md_name dev) (md_mode dev)
    (mw, snd (md_limit dev)) (md_constraints dev) (md_usage dev) (md_set dev).

(** The milliwatt value [setPowerLimit] writes to the device for a request
    of [w] watts. *)
Definition target_limit (dev : MockDevice) (w : Z) : Z :=
  fst (clamp 0 w (fst (fst (md_constraints dev))) (snd (fst (md_constraints dev)))
         (u32_mul w 1000)).

(** ** Small facts about the setter and the reader *)

Section Properties.

Context {G : Gateway}.

Implicit Types (s : World) (g : Session) (d : Device).

Lemma getGPUInfo_Index g index : Index (fst (getGPUInfo g index)) = index.
Proof.
  unfold getGPUInfo.
  destruct (nvml_DeviceGetHandleByIndex g index) as [d r1].
  destruct (decide (r1 <> SUCCESS)); [reflexivity|].
  destruct (nvml_DeviceGetName g d) as [nm r2].
  destruct (nvml_DeviceGetPowerManagementMode g d) as [m r3].
  destruct (decide (r3 <> SUCCESS)); [reflexivity|].
  destruct (bool_decide (m = FEATURE_ENABLED)); simpl; [|reflexivity].
  destruct (nvml_DeviceGetPowerManagementLimit g d) as [c r4].
  destruct (decide (r4 <> SUCCESS)); [reflexivity|].
  destruct (nvml_DeviceGetPowerManagementLimitConstraints g d) as [[lo hi] r5].
  destruct (decide (r5 <> SUCCESS)); [reflexivity|].
  destruct (nvml_DeviceGetPowerUsage g d) as [p r6].
  destruct (decide (r6 = SUCCESS)); reflexivity.
Qed.

Lemma clamp_in_range index w lo hi mw :
  lo <= hi -> lo <= fst (clamp index w lo hi mw) <= hi.
Proof.
  intros Hle. unfold clamp.
  destruct (decide (mw < lo)); simpl; [lia|].
  destruct (decide (mw > hi)); simpl; lia.
Qed.

(** What the setter does once handle, mode and constraints have been read:
    one write of the clamped value, then a fresh read of the device. *)
Lemma setPowerLimit_write s index w d lo hi :
  nvml_DeviceGetHandleByIndex (hw s) index = (d, SUCCESS) ->
  nvml_DeviceGetPowerManagementMode (hw s) d = (FEATURE_ENABLED, SUCCESS) ->
  nvml_DeviceGetPowerManagementLimitConstraints (hw s) d = (lo, hi, SUCCESS) ->
  let mw := fst (clamp index w lo hi (u32_mul w 1000)) in
  let res := nvml_DeviceSetPowerManagementLimit (hw s) d mw in
  writes (snd (setPowerLimit index w s)) = writes s ++ [(d, mw)] /\
  hw (snd (setPowerLimit index w s)) = snd res /\
  gpuCache (snd (setPowerLimit index w s)) = gpuCache s /\
  fst (setPowerLimit index w s) =
    (if decide (fst res <> SUCCESS)
     then (GPUInfo_zero, Some (ErrSetLimit (fst res)))
     else getGPUInfo (snd res) index).
Proof.
  intros Hh Hm Hc mw res. unfold setPowerLimit.
  rewrite Hh. destruct (decide (SUCCESS <> SUCCESS)) as [c|_]; [congruence|].
  rewrite Hm. destruct (decide (FEATURE_ENABLED <> FEATURE_ENABLED)) as [c|_];
    [congruence|].
  rewrite Hc.
  destruct (clamp index w lo hi (u32_mul w 1000)) as [v line] eqn:Hcl.
  assert (Hv : mw = v) by reflexivity.
  assert (Hhw : hw (match line with Some e => log_Printf e s | None => s end)
                = hw s) by (destruct line; reflexivity).
  rewrite Hhw. subst res. rewrite Hv.
  destruct (nvml_DeviceSetPowerManagementLimit (hw s) d v) as [ret g'].
  simpl. destruct (decide (ret <> SUCCESS)); simpl; destruct line; simpl; auto.
Qed.

(** Every exit of the setter before the write leaves the world as it was. *)
Lemma setPowerLimit_no_write s index w :
  (let '(d, r1) := nvml_DeviceGetHandleByIndex (hw s) index in
   r1 <> SUCCESS \/
   (let '(m, r2) := nvml_DeviceGetPowerManagementMode (hw s) d in
    r2 <> SUCCESS \/ m <> FEATURE_ENABLED \/
    snd (nvml_DeviceGetPowerManagementLimitConstraints (hw s) d)
      <> SUCCESS)) ->
  snd (setPowerLimit index w s) = s /\
  fst (fst (setPowerLimit index w s)) = GPUInfo_zero /\
  is_Some (snd (fst (setPowerLimit index w s))).
Proof.
  unfold setPowerLimit.
  destruct (nvml_DeviceGetHandleByIndex (hw s) index) as [d r1].
  destruct (decide (r1 <> SUCCESS)); [simpl; eauto|].
  destruct (nvml_DeviceGetPowerManagementMode (hw s) d) as [m r2].
  destruct (decide (r2 <> SUCCESS)); [simpl; eauto|].
  destruct (decide (m <> FEATURE_ENABLED)); [simpl; eauto|].
  destruct (nvml_DeviceGetPowerManagementLimitConstraints (hw s) d)
    as [[lo hi] r3].
  destruct (decide (r3 <> SUCCESS)); [simpl; eauto|].
  simpl. intros [?|[?|[?|?]]]; contradiction.
Qed.

(** Without wrap-around the written value is the one the specification
    names, and it always lies within the bounds. *)
Lemma setPowerLimit_clamp_exact s index w d lo hi :
  nvml_DeviceGetHandleByIndex (hw s) index = (d, SUCCESS) ->
  nvml_DeviceGetPowerManagementMode (hw s) d = (FEATURE_ENABLED, SUCCESS) ->
  nvml_DeviceGetPowerManagementLimitConstraints (hw s) d = (lo, hi, SUCCESS) ->
  lo <= hi ->
  exists mw,
    writes (snd (setPowerLimit index w s)) = writes s ++ [(d, mw)] /\
    lo <= mw <= hi /\
    (0 <= w * 1000 < u32_modulus -> mw = spec_written lo hi w).
Proof.
  intros Hh Hm Hc Hle.
  destruct (setPowerLimit_write s index w d lo hi Hh Hm Hc) as (Hw & _).
  eexists. split; [exact Hw|]. split; [by apply clamp_in_range|].
  intros Hr. unfold clamp, spec_written, u32_mul.
  rewrite (Z.mod_small _ _ Hr).
  destruct (decide (w * 1000 < lo)); [reflexivity|].
  destruct (decide (w * 1000 > hi)); reflexivity.
Qed.

Lemma setPowerLimit_success s index w info s' :
  setPowerLimit index w s = ((info, None), s') ->
  getGPUInfo (hw s') index = (info, None).
Proof.
  unfold setPowerLimit.
  destruct (nvml_DeviceGetHandleByIndex (hw s) index) as [d r1].
  destruct (decide (r1 <> SUCCESS)); [intros [=]|].
  destruct (nvml_DeviceGetPowerManagementMode (hw s) d) as [m r2].
  destruct (decide (r2 <> SUCCESS)); [intros [=]|].
  destruct (decide (m <> FEATURE_ENABLED)); [intros [=]|].
  destruct (nvml_DeviceGetPowerManagementLimitConstraints (hw s) d)
    as [[lo hi] r3].
  destruct (decide (r3 <> SUCCESS)); [intros [=]|].
  destruct (clamp index w lo hi (u32_mul w 1000)) as [v line].
  destruct (nvml_DeviceSetPowerManagementLimit _ d v) as [ret g'].
  destruct (decide (ret <> SUCCESS)); [intros [=]|].
  intros [= Hr <-]. exact Hr.
Qed.

Lemma getGPUInfo_ordered g index info :
  getGPUInfo g index = (info, None) ->
  limit_within_constraints g ->
  Supported info = true ->
  MinLimit info <= PowerLimit info <= MaxLimit info.
Proof.
  unfold getGPUInfo. intros Hget Hlwc.
  destruct (nvml_DeviceGetHandleByIndex g index) as [d r1].
  destruct (decide (r1 <> SUCCESS)); [discriminate|].
  destruct (nvml_DeviceGetName g d) as [nm r2].
  destruct (nvml_DeviceGetPowerManagementMode g d) as [m r3].
  destruct (decide (r3 <> SUCCESS)); [discriminate|].
  destruct (bool_decide (m = FEATURE_ENABLED)); simpl in Hget;
    [|injection Hget as <-; discriminate].
  destruct (nvml_DeviceGetPowerManagementLimit g d) as [cur r4] eqn:Hcur.
  destruct (decide (r4 <> SUCCESS)) as [|Hr4]; [discriminate|].
  destruct (nvml_DeviceGetPowerManagementLimitConstraints g d)
    as [[lo hi] r5] eqn:Hcon.
  destruct (decide (r5 <> SUCCESS)) as [|Hr5]; [discriminate|].
  apply dec_stable in Hr4. apply dec_stable in Hr5. subst r4 r5.
  specialize (Hlwc d cur lo hi Hcur Hcon).
  assert (lo / 1000 <= cur / 1000 <= hi / 1000)
    by (split; apply Z.div_le_mono; lia).
  destruct (nvml_DeviceGetPowerUsage g d) as [p r6].
  destruct (decide (r6 = SUCCESS)); injection Hget as <-; intros _;
    unfold u32_div; simpl; assumption.
Qed.

(** C3: when the device's power-management mode is read successfully and
    is not enabled, [setPowerLimit] returns the "power management not
    supported" error for every requested wattage, issues no limit write and
    leaves the whole world, the driver session included, as it was. *)
Theorem setPowerLimit_unsupported s index w d m :
  nvml_DeviceGetHandleByIndex (hw s) index = (d, SUCCESS) ->
  nvml_DeviceGetPowerManagementMode (hw s) d = (m, SUCCESS) ->
  m <> FEATURE_ENABLED ->
  setPowerLimit index w s = ((GPUInfo_zero, Some ErrUnsupported), s) /\
  writes (snd (setPowerLimit index w s)) = writes s /\
  hw (snd (setPowerLimit index w s)) = hw s.
Proof.
  intros Hh Hm Hne.
  assert (E : setPowerLimit index w s = ((GPUInfo_zero, Some ErrUnsupported), s)).
  { unfold setPowerLimit. rewrite Hh.
    destruct (decide (SUCCESS <> SUCCESS)) as [c|_]; [congruence|].
    rewrite Hm. destruct (decide (SUCCESS <> SUCCESS)) as [c|_]; [congruence|].
    destruct (decide (m <> FEATURE_ENABLED)); [reflexivity|contradiction]. }
  rewrite E. auto.
Qed.

(** C4: a record returned without error by [getGPUInfo], or by
    [setPowerLimit], from a session that reports the current limit within
    the constraints has [MinLimit <= PowerLimit <= MaxLimit] whenever its
    [Supported] flag is set; the division by 1000 keeps the order. *)
Theorem limits_ordered_after_read_or_write s index w info :
  (getGPUInfo (hw s) index = (info, None) ->
   limit_within_constraints (hw s) ->
   Supported info = true ->
   MinLimit info <= PowerLimit info <= MaxLimit info) /\
  (forall s',
     setPowerLimit index w s = ((info, None), s') ->
     limit_within_constraints (hw s') ->
     Supported info = true ->
     MinLimit info <= PowerLimit info <= MaxLimit info).
Proof.
  split.
  - apply getGPUInfo_ordered.
  - intros s' Hset. apply getGPUInfo_ordered with (index := index).
    by eapply setPowerLimit_success.
Qed.

End Properties.

(** ** The setter on the mock gateway *)

Lemma one_gpu_within_constraints w :
  limit_within_constraints (hw (snd (setPowerLimit 0 w one_gpu))).
Proof.
  destruct (setPowerLimit_clamp_exact one_gpu 0 w 0%nat 100000 300000
              eq_refl eq_refl eq_refl ltac:(lia)) as (mw & _ & Hmw & _).
  destruct (setPowerLimit_write one_gpu 0 w 0%nat 100000 300000
              eq_refl eq_refl eq_refl) as (_ & Hhw & _).
  rewrite Hhw. clear Hhw.
  set (v := fst (clamp 0 w 100000 300000 (u32_mul w 1000))).
  assert (Hv : 100000 <= v <= 300000) by (apply clamp_in_range; lia).
  clearbody v. intros [|d] cur lo hi; simpl.
  - intros [= <- ] [= <- <-]. lia.
  - discriminate.
Qed.

(** C1: the requested 4294968 W is a [uint32], and [4294968 * 1000] lies
    above the device maximum of 300000 mW, so the specification asks for a
    write of 300000; [setPowerLimit] writes the minimum, 100000, logs the
    request as below the minimum, and reports success. *)
Theorem setPowerLimit_overflow_writes_minimum :
  0 <= 4294968 < u32_modulus /\
  spec_written 100000 300000 4294968 = 300000 /\
  writes (snd (setPowerLimit 0 4294968 one_gpu)) = [(0%nat, 100000)] /\
  logged (snd (setPowerLimit 0 4294968 one_gpu))
    = [LogBelowMin 0 4294968 100 100] /\
  snd (fst (setPowerLimit 0 4294968 one_gpu)) = None.
Proof. vm_compute. repeat split; congruence. Qed.

(** C10: the conversion to milliwatts wraps at 2^32, so the value the clamp
    receives is [(w * 1000) mod 2^32]; with 4294968 W the product exceeds
    2^32, the wrapped value 704 falls below the minimum of the device, and
    the setter writes the minimum although the request is above the
    maximum. *)
Theorem setPowerLimit_converts_in_uint32 :
  (forall (G : Gateway) (s : World) index w d lo hi,
     nvml_DeviceGetHandleByIndex (hw s) index = (d, SUCCESS) ->
     nvml_DeviceGetPowerManagementMode (hw s) d = (FEATURE_ENABLED, SUCCESS) ->
     nvml_DeviceGetPowerManagementLimitConstraints (hw s) d
       = (lo, hi, SUCCESS) ->
     writes (snd (setPowerLimit index w s))
       = writes s ++ [(d, fst (clamp index w lo hi ((w * 1000) mod 2 ^ 32)))]) /\
  (exists w,
     0 <= w < 2 ^ 32 /\ 2 ^ 32 <= w * 1000 /\ 300000 < w * 1000 /\
     (w * 1000) mod 2 ^ 32 < 100000 /\
     writes (snd (setPowerLimit 0 w one_gpu)) = [(0%nat, 100000)]).
Proof.
  split.
  - intros G s index w d lo hi Hh Hm Hc.
    by destruct (setPowerLimit_write s index w d lo hi Hh Hm Hc) as (Hw & _).
  - exists 4294968. vm_compute. repeat split; congruence.
Qed.

Lemma setPowerLimit_converts_in_uint32_witness :
  writes (snd (setPowerLimit 0 4294967 one_gpu))
    = [(0%nat, fst (clamp 0 4294967 100000 300000
                      ((4294967 * 1000) mod 2 ^ 32)))].
Proof.
  exact (proj1 setPowerLimit_converts_in_uint32 MockGateway one_gpu 0 4294967
           0%nat 100000 300000 eq_refl eq_refl eq_refl).
Defined.

Lemma setPowerLimit_unsupported_witness :
  let s := mock_world [no_power_mgmt] in
  setPowerLimit 0 200 s = ((GPUInfo_zero, Some ErrUnsupported), s) /\
  writes (snd (setPowerLimit 0 200 s)) = writes s /\
  hw (snd (setPowerLimit 0 200 s)) = hw s.
Proof.
  intros s.
  apply (setPowerLimit_unsupported s 0 200 0%nat FEATURE_DISABLED);
    [reflexivity | reflexivity | discriminate].
Defined.

Lemma limits_ordered_after_read_or_write_witness :
  let info := mkGPUInfo 0 "GPU0" 250 100 300 55 true in
  let info' := mkGPUInfo 0 "GPU0" 120 100 300 55 true in
  MinLimit info <= PowerLimit info <= MaxLimit info /\
  MinLimit info' <= PowerLimit info' <= MaxLimit info'.
Proof.
  intros info info'. split.
  - apply (proj1 (limits_ordered_after_read_or_write one_gpu 0 120 info));
      [reflexivity | | reflexivity].
    intros [|d] cur lo hi; simpl.
    + intros [= <-] [= <- <-]. lia.
    + discriminate.
  - apply (proj2 (limits_ordered_after_read_or_write one_gpu 0 120 info')
             (snd (setPowerLimit 0 120 one_gpu)));
      [reflexivity | apply one_gpu_within_constraints | reflexivity].
Defined.

(** ** The cache refresh *)

Section Refresh.

Context {G : Gateway}.

Implicit Types (s : World) (g : Session).

Lemma refresh_loop_frame n : forall i s,
  hw (refresh_loop n i s) = hw s /\
  writes (refresh_loop n i s) = writes s /\
  calls (refresh_loop n i s) = calls s /\
  length (gpuCache (refresh_loop n i s)) = length (gpuCache s).
Proof.
  induction n as [|n IH]; intros i s; simpl; [auto|].
  destruct (getGPUInfo (hw s) i) as [info [e|]].
  - destruct (IH (i + 1) (log_Printf (LogInfoFailed i e) s)) as (-> & -> & -> & ->).
    auto.
  - destruct (IH (i + 1)
      (set_gpuCache (<[Z.to_nat i := info]> (gpuCache s)) s)) as (-> & -> & -> & ->).
    simpl. rewrite length_insert. auto.
Qed.

(** Slot [j] after the loop has run over [i, i + n): the record read for
    device [j] when that read returned no error, the old content otherwise. *)
Lemma refresh_loop_lookup n : forall i s (j : nat),
  0 <= i ->
  gpuCache (refresh_loop n i s) !! j =
    if decide (i <= Z.of_nat j < i + Z.of_nat n) then
      match snd (getGPUInfo (hw s) (Z.of_nat j)) with
      | None => (fun _ => fst (getGPUInfo (hw s) (Z.of_nat j))) <$> gpuCache s !! j
      | Some _ => gpuCache s !! j
      end
    else gpuCache s !! j.
Proof.
  induction n as [|n IH]; intros i s j Hi.
  - simpl. destruct (decide _); [lia|reflexivity].
  - cbn [refresh_loop].
    destruct (getGPUInfo (hw s) i) as [info err] eqn:E.
    destruct (decide (Z.of_nat j = i)) as [Hj|Hj].
    + assert (Hji : Z.to_nat i = j) by lia.
      destruct (decide (i <= Z.of_nat j < i + Z.of_nat (S n))); [|lia].
      rewrite Hj, E. simpl.
      destruct err as [e|]; rewrite IH by lia;
        (destruct (decide (i + 1 <= Z.of_nat j < i + 1 + Z.of_nat n)); [lia|]);
        simpl; [reflexivity|].
      rewrite Hji. destruct (gpuCache s !! j) eqn:El; simpl.
      * apply list_lookup_insert_eq. by eapply lookup_lt_Some.
      * rewrite list_insert_ge; [done|]. by apply lookup_ge_None.
    + assert (Hji : Z.to_nat i <> j) by lia.
      destruct err as [e|]; rewrite IH by lia; simpl;
        try rewrite (list_lookup_insert_ne _ _ _ _ Hji);
        destruct (decide (i + 1 <= Z.of_nat j < i + 1 + Z.of_nat n));
        destruct (decide (i <= Z.of_nat j < i + Z.of_nat (S n)));
        try lia; reflexivity.
Qed.

(** The warnings of the loop: one per device whose read returned an error. *)
Lemma refresh_loop_logged n : forall i s,
  logged (refresh_loop n i s) =
    logged s ++ omap (fun j => LogInfoFailed j <$> snd (getGPUInfo (hw s) j))
                     (seqZ i (Z.of_nat n)).
Proof.
  induction n as [|n IH]; intros i s.
  - simpl. by rewrite app_nil_r.
  - cbn [refresh_loop]. rewrite seqZ_cons by lia.
    replace (Z.pred (Z.of_nat (S n))) with (Z.of_nat n) by lia.
    cbn [omap list_omap]. fold (@omap list _ Z LogEntry).
    destruct (getGPUInfo (hw s) i) as [info [e|]]; rewrite IH; simpl.
    + by rewrite <- app_assoc.
    + reflexivity.
Qed.

(** A read that stops at the current limit or at the constraints has
    already recorded the device as supported. *)
Lemma getGPUInfo_partial g index r :
  snd (getGPUInfo g index) = Some (ErrCurrentLimit r) \/
  snd (getGPUInfo g index) = Some (ErrConstraints r) ->
  Supported (fst (getGPUInfo g index)) = true.
Proof.
  unfold getGPUInfo.
  destruct (nvml_DeviceGetHandleByIndex g index) as [d r1].
  destruct (decide (r1 <> SUCCESS)); [simpl; intros [?|?]; discriminate|].
  destruct (nvml_DeviceGetName g d) as [nm r2].
  destruct (nvml_DeviceGetPowerManagementMode g d) as [m r3].
  destruct (decide (r3 <> SUCCESS)); [simpl; intros [?|?]; discriminate|].
  destruct (bool_decide (m = FEATURE_ENABLED)); simpl;
    [|intros [?|?]; discriminate].
  destruct (nvml_DeviceGetPowerManagementLimit g d) as [c r4].
  destruct (decide (r4 <> SUCCESS)); [reflexivity|].
  destruct (nvml_DeviceGetPowerManagementLimitConstraints g d) as [[lo hi] r5].
  destruct (decide (r5 <> SUCCESS)); [reflexivity|].
  destruct (nvml_DeviceGetPowerUsage g d) as [p r6].
  destruct (decide (r6 = SUCCESS)); reflexivity.
Qed.

(** [initNVML] when both [Init] and the count query succeed. *)
Lemma initNVML_ok s g count :
  nvml_Init (hw s) = (SUCCESS, g) ->
  nvml_DeviceGetCount g = (count, SUCCESS) ->
  initNVML s =
    (None, refresh_loop (Z.to_nat count) 0
             (set_gpuCache (replicate (Z.to_nat count) GPUInfo_zero)
                (set_hw g s))).
Proof.
  intros Hi Hc. unfold initNVML. rewrite Hi.
  destruct (decide (SUCCESS <> SUCCESS)) as [c|_]; [congruence|].
  simpl. rewrite Hc.
  destruct (decide (SUCCESS <> SUCCESS)) as [c|_]; [congruence|]. reflexivity.
Qed.

Lemma initNVML_None s :
  fst (initNVML s) = None ->
  fst (nvml_Init (hw s)) = SUCCESS /\
  snd (nvml_DeviceGetCount (snd (nvml_Init (hw s)))) = SUCCESS.
Proof.
  unfold initNVML. destruct (nvml_Init (hw s)) as [r1 g].
  destruct (decide (r1 <> SUCCESS)) as [|H1]; [discriminate|].
  simpl. destruct (nvml_DeviceGetCount g) as [count r2].
  destruct (decide (r2 <> SUCCESS)) as [|H2]; [discriminate|].
  intros _. split; by apply dec_stable.
Qed.

(** After a successful refresh, slot [i] of the cache holds the record read
    for device [i], or the zero value when that read returned an error. *)
Lemma initNVML_slot s i :
  fst (initNVML s) = None ->
  let g := snd (nvml_Init (hw s)) in
  0 <= i < fst (nvml_DeviceGetCount g) ->
  hw (snd (initNVML s)) = g /\
  gpuCache (snd (initNVML s)) !! Z.to_nat i =
    Some (match snd (getGPUInfo g i) with
          | None => fst (getGPUInfo g i)
          | Some _ => GPUInfo_zero
          end) /\
  forall e, snd (getGPUInfo g i) = Some e ->
            LogInfoFailed i e ∈ logged (snd (initNVML s)).
Proof.
  intros Hok g Hi. destruct (initNVML_None s Hok) as [H1 H2].
  subst g. destruct (nvml_Init (hw s)) as [r1 g] eqn:Ei.
  simpl in *. subst r1.
  destruct (nvml_DeviceGetCount g) as [count r2] eqn:Ec. simpl in *. subst r2.
  rewrite (initNVML_ok s g count Ei Ec). simpl.
  split; [apply refresh_loop_frame|]. split.
  - rewrite refresh_loop_lookup by lia. simpl.
    replace (Z.of_nat (Z.to_nat i)) with i by lia.
    destruct (decide (0 <= i < 0 + Z.of_nat (Z.to_nat count))); [|lia].
    rewrite lookup_replicate_2 by lia.
    destruct (snd (getGPUInfo g i)); reflexivity.
  - intros e He. rewrite refresh_loop_logged. simpl.
    apply elem_of_app. right. apply list_elem_of_omap. exists i. split.
    + apply elem_of_seqZ. lia.
    + by rewrite He.
Qed.

End Refresh.

(** C5: [initNVML] returns an error exactly when [nvml.Init] or the
    device-count query fails, and then [gpuCache] is what it was; when it
    returns no error the cache is a new slice that does not depend on the
    old one, its indices are exactly [0, count), and every slot is filled:
    with the record read for that device, or with the zero record (whose
    [Supported] flag is false) when that read returned an error. *)
Theorem initNVML_error_iff_and_snapshot {G : Gateway} (s : World) :
  let init := nvml_Init (hw s) in
  let count := nvml_DeviceGetCount (snd init) in
  (is_Some (fst (initNVML s))
     <-> fst init <> SUCCESS \/ snd count <> SUCCESS) /\
  (is_Some (fst (initNVML s)) -> gpuCache (snd (initNVML s)) = gpuCache s) /\
  (fst (initNVML s) = None ->
     (forall j : nat,
        is_Some (gpuCache (snd (initNVML s)) !! j) <-> Z.of_nat j < fst count) /\
     (forall cache0,
        gpuCache (snd (initNVML (set_gpuCache cache0 s)))
          = gpuCache (snd (initNVML s))) /\
     (forall i, 0 <= i < fst count ->
        gpuCache (snd (initNVML s)) !! Z.to_nat i =
          Some (match snd (getGPUInfo (snd init) i) with
                | None => fst (getGPUInfo (snd init) i)
                | Some _ => GPUInfo_zero
                end))).
Proof.
  intros init count. split; [|split].
  - subst init count. unfold initNVML.
    destruct (nvml_Init (hw s)) as [r1 g]. simpl.
    destruct (decide (r1 <> SUCCESS)) as [H1|H1]; simpl.
    { split; [auto|]. intros _. by eexists. }
    destruct (nvml_DeviceGetCount g) as [c r2]. simpl.
    destruct (decide (r2 <> SUCCESS)) as [H2|H2]; simpl.
    { split; [auto|]. intros _. by eexists. }
    split; [intros [x Hx]; discriminate|]. intros [?|?]; contradiction.
  - unfold initNVML. destruct (nvml_Init (hw s)) as [r1 g].
    destruct (decide (r1 <> SUCCESS)); [reflexivity|]. simpl.
    destruct (nvml_DeviceGetCount g) as [c r2].
    destruct (decide (r2 <> SUCCESS)); [reflexivity|].
    simpl. intros [x Hx]. discriminate.
  - intros Hok. destruct (initNVML_None s Hok) as [H1 H2].
    fold init in H1, H2. fold count in H2.
    pose proof (nvml_DeviceGetCount_nonneg (snd init)) as Hnn. fold count in Hnn.
    assert (Ei : nvml_Init (hw s) = (SUCCESS, snd init))
      by (subst init; destruct (nvml_Init (hw s)); simpl in *; congruence).
    assert (Ec : nvml_DeviceGetCount (snd init) = (fst count, SUCCESS))
      by (subst count; destruct (nvml_DeviceGetCount (snd init)); simpl in *;
          congruence).
    split; [|split].
    + intros j. rewrite lookup_lt_is_Some.
      rewrite (initNVML_ok s _ _ Ei Ec).
      destruct (refresh_loop_frame (Z.to_nat (fst count)) 0
        (set_gpuCache (replicate (Z.to_nat (fst count)) GPUInfo_zero)
           (set_hw (snd init) s))) as (_ & _ & _ & Hlen).
      simpl in *. rewrite Hlen, length_replicate. lia.
    + intros cache0.
      rewrite (initNVML_ok s _ _ Ei Ec).
      by rewrite (initNVML_ok (set_gpuCache cache0 s) _ _ Ei Ec).
    + intros i Hi. by apply (initNVML_slot s i Hok).
Qed.

Lemma initNVML_error_iff_and_snapshot_witness :
  (is_Some (gpuCache (snd (initNVML two_gpus_one_unreadable)) !! 2%nat)
     <-> Z.of_nat 2 < 2) /\
  gpuCache (snd (initNVML two_gpus_one_unreadable)) !! Z.to_nat 0
    = Some (mkGPUInfo 0 "GPU0" 250 100 300 55 true).
Proof.
  destruct (proj2 (proj2
              (initNVML_error_iff_and_snapshot two_gpus_one_unreadable))
              eq_refl) as (Hidx & _ & Hslot).
  split; [exact (Hidx 2%nat)|].
  exact (Hslot 0 ltac:(simpl; lia)).
Defined.

(** C2 as stated fails: device 1 is supported and its current-limit read
    fails; [getGPUInfo] hands back the record built so far (index 1, name
    "GPU1", supported) together with the error, but the refresh stores the
    zero record in slot 1. *)
Lemma refresh_drops_partial_record :
  let s' := snd (initNVML two_gpus_one_unreadable) in
  fst (initNVML two_gpus_one_unreadable) = None /\
  getGPUInfo (hw s') 1
    = (mkGPUInfo 1 "GPU1" 0 0 0 0 true, Some (ErrCurrentLimit (ERROR 999))) /\
  gpuCache s' !! 1%nat = Some GPUInfo_zero /\
  gpuCache s' !! 1%nat <> Some (fst (getGPUInfo (hw s') 1)).
Proof. vm_compute. repeat split; congruence. Qed.

(** C2, amended: during a refresh that returns no error, a device whose
    current-limit or constraints read fails gets a warning in the log and
    its slot keeps the zero record, not the record built so far (which
    carries the index and the supported flag and so differs from it); every
    device whose read returned no error still gets its record. *)
Theorem refresh_failed_read_leaves_zero_slot {G : Gateway} (s : World) i r :
  fst (initNVML s) = None ->
  let g := snd (nvml_Init (hw s)) in
  0 <= i < fst (nvml_DeviceGetCount g) ->
  snd (getGPUInfo g i) = Some (ErrCurrentLimit r) \/
  snd (getGPUInfo g i) = Some (ErrConstraints r) ->
  (exists e, snd (getGPUInfo g i) = Some e /\
             LogInfoFailed i e ∈ logged (snd (initNVML s))) /\
  gpuCache (snd (initNVML s)) !! Z.to_nat i = Some GPUInfo_zero /\
  Index (fst (getGPUInfo g i)) = i /\
  Supported (fst (getGPUInfo g i)) = true /\
  fst (getGPUInfo g i) <> GPUInfo_zero /\
  (forall j, 0 <= j < fst (nvml_DeviceGetCount g) ->
     snd (getGPUInfo g j) = None ->
     gpuCache (snd (initNVML s)) !! Z.to_nat j = Some (fst (getGPUInfo g j))).
Proof.
  intros Hok g Hi Hfail.
  destruct (initNVML_slot s i Hok Hi) as (_ & Hslot & Hlog). fold g in Hslot, Hlog.
  pose proof (getGPUInfo_partial g i r Hfail) as Hsup.
  assert (He : exists e, snd (getGPUInfo g i) = Some e)
    by (destruct Hfail; eauto).
  destruct He as [e He].
  split; [exists e; auto|]. split; [by rewrite Hslot, He|].
  split; [apply getGPUInfo_Index|]. split; [exact Hsup|]. split.
  - intros Hz. rewrite Hz in Hsup. discriminate.
  - intros j Hj Hnone. destruct (initNVML_slot s j Hok Hj) as (_ & Hs & _).
    fold g in Hs. by rewrite Hs, Hnone.
Qed.

Lemma refresh_failed_read_leaves_zero_slot_witness :
  gpuCache (snd (initNVML two_gpus_one_unreadable)) !! Z.to_nat 1
    = Some GPUInfo_zero /\
  gpuCache (snd (initNVML two_gpus_one_unreadable)) !! Z.to_nat 0
    = Some (mkGPUInfo 0 "GPU0" 250 100 300 55 true).
Proof.
  destruct (refresh_failed_read_leaves_zero_slot two_gpus_one_unreadable 1
              (ERROR 999) eq_refl ltac:(simpl; lia) (or_introl eq_refl))
    as (_ & Hz & _ & _ & _ & Hothers).
  split; [exact Hz|].
  exact (Hothers 0 ltac:(simpl; lia) eq_refl).
Defined.

(** ** The dispatcher loops *)

Section Dispatch.

Context {G : Gateway}.

Implicit Types (s : World) (outs : list (Z * Z * (GPUInfo * option Error))).

Lemma setPowerLimit_frame s index w :
  calls (snd (setPowerLimit index w s)) = calls s /\
  logged s `prefix_of` logged (snd (setPowerLimit index w s)).
Proof.
  unfold setPowerLimit.
  destruct (nvml_DeviceGetHandleByIndex (hw s) index) as [d r1].
  destruct (decide (r1 <> SUCCESS)); [done|].
  destruct (nvml_DeviceGetPowerManagementMode (hw s) d) as [m r2].
  destruct (decide (r2 <> SUCCESS)); [done|].
  destruct (decide (m <> FEATURE_ENABLED)); [done|].
  destruct (nvml_DeviceGetPowerManagementLimitConstraints (hw s) d)
    as [[lo hi] r3].
  destruct (decide (r3 <> SUCCESS)); [done|].
  destruct (clamp index w lo hi (u32_mul w 1000)) as [v line].
  destruct (nvml_DeviceSetPowerManagementLimit _ d v) as [ret g'].
  destruct (decide (ret <> SUCCESS)); destruct line; simpl;
    (split; [reflexivity|]); try done; by apply prefix_app_r.
Qed.

Lemma setPowerLimit_sound s index w :
  snd (fst (setPowerLimit index w s)) = None ->
  Index (fst (fst (setPowerLimit index w s))) = index.
Proof.
  destruct (setPowerLimit index w s) as [[info err] s'] eqn:E. simpl.
  intros ->. apply setPowerLimit_success in E.
  pose proof (getGPUInfo_Index (hw s') index) as Hi. by rewrite E in Hi.
Qed.

(** One call from the dispatcher: it is entered in [calls] with what the
    setter returned, and nothing is removed from the log. *)
Lemma call_setPowerLimit_spec s index w :
  let r := fst (call_setPowerLimit index w s) in
  let s' := snd (call_setPowerLimit index w s) in
  r = fst (setPowerLimit index w s) /\
  calls s' = calls s ++ [(index, w, r)] /\
  call_sound (index, w, r) /\
  logged s `prefix_of` logged s'.
Proof.
  unfold call_setPowerLimit.
  pose proof (setPowerLimit_frame s index w) as [Hc Hl].
  pose proof (setPowerLimit_sound s index w) as Hs.
  destruct (setPowerLimit index w s) as [r s1]. simpl in *.
  rewrite Hc. auto.
Qed.

Lemma successes_cons_ok index w info outs :
  successes ((index, w, (info, None)) :: outs) = info :: successes outs.
Proof. reflexivity. Qed.

Lemma successes_cons_err index w info e outs :
  successes ((index, w, (info, Some e)) :: outs) = successes outs.
Proof. reflexivity. Qed.

Lemma elem_of_successes outs info :
  info ∈ successes outs <->
  exists index w, (index, w, (info, None)) ∈ outs.
Proof.
  unfold successes. rewrite list_elem_of_omap. split.
  - intros ([[index w] [i' [e|]]] & Hin & Heq); simpl in Heq; [discriminate|].
    injection Heq as ->. eauto.
  - intros (index & w & Hin). by exists (index, w, (info, None)).
Qed.

Lemma loop_outcome_step s s' index w r s1 acc res args outs :
  call_setPowerLimit index w s = (r, s1) ->
  loop_outcome
    (match snd r with Some e => log_Printf (LogSetFailed index e) s1 | None => s1 end)
    s'
    (match snd r with Some _ => acc | None => acc ++ [fst r] end)
    res args outs ->
  loop_outcome s s' acc res ((index, w) :: args) ((index, w, r) :: outs).
Proof.
  intros E (Hc & Ha & Hr & Hs & Hg & Hl & Hf).
  destruct (call_setPowerLimit_spec s index w) as (Hr0 & Hc0 & Hs0 & Hl0).
  rewrite E in Hr0, Hc0, Hs0, Hl0. simpl in Hr0, Hc0, Hs0, Hl0.
  assert (Hpre : logged s1 `prefix_of` logged s').
  { destruct (snd r); [|done]. etrans; [|exact Hl]. simpl. by apply prefix_app_r. }
  assert (Hcalls : calls s' = (calls s ++ [(index, w, r)]) ++ outs).
  { rewrite <- Hc0. destruct (snd r); exact Hc. }
  repeat split.
  - by rewrite Hcalls, <- app_assoc.
  - rewrite fmap_cons. simpl. by rewrite Ha.
  - destruct r as [info [e|]]; simpl in *.
    + exact Hr.
    + by rewrite Hr, <- app_assoc.
  - by constructor.
  - constructor; [|done]. exists s. simpl. exact Hr0.
  - by etrans.
  - intros i' w' info e Hin. apply elem_of_cons in Hin as [Heq|Hin]; [|eauto].
    injection Heq as -> -> Heq. rewrite <- Heq in Hl. simpl in Hl.
    eapply elem_of_prefix; [|exact Hl]. apply elem_of_app. right. by left.
Qed.

Lemma all_loop_spec n : forall i powerLimit acc s,
  exists outs,
    loop_outcome s (snd (all_loop n i powerLimit acc s)) acc
      (fst (all_loop n i powerLimit acc s))
      ((fun j => (j, powerLimit)) <$> seqZ i (Z.of_nat n)) outs.
Proof.
  induction n as [|n IH]; intros i pl acc s.
  - exists []. simpl. unfold loop_outcome. simpl. rewrite !app_nil_r.
    repeat split; try done. intros ? ? ? ? Hin. by apply elem_of_nil in Hin.
  - rewrite seqZ_cons by lia.
    replace (Z.pred (Z.of_nat (S n))) with (Z.of_nat n) by lia.
    replace (Z.succ i) with (i + 1) by lia.
    cbn [all_loop].
    destruct (call_setPowerLimit i pl s) as [[info err] s1] eqn:E.
    destruct err as [e|].
    + destruct (IH (i + 1) pl acc (log_Printf (LogSetFailed i e) s1)) as [outs Ho].
      exists ((i, pl, (info, Some e)) :: outs).
      rewrite fmap_cons. by eapply loop_outcome_step.
    + destruct (IH (i + 1) pl (acc ++ [info]) s1) as [outs Ho].
      exists ((i, pl, (info, None)) :: outs).
      rewrite fmap_cons. by eapply loop_outcome_step.
Qed.

Lemma manual_loop_spec entries : forall count acc s,
  exists outs,
    loop_outcome s (snd (manual_loop entries count acc s)) acc
      (fst (manual_loop entries count acc s))
      (filter (fun p => 0 <= fst p /\ fst p < count) entries) outs /\
    (forall p, p ∈ entries -> ~ (0 <= fst p /\ fst p < count) ->
       LogNoSuchGPU (fst p) ∈ logged (snd (manual_loop entries count acc s))).
Proof.
  induction entries as [|[gpuIndex pl] rest IH]; intros count acc s.
  - exists []. simpl. split.
    + unfold loop_outcome. simpl. rewrite !app_nil_r.
      repeat split; try done. intros ? ? ? ? Hin. by apply elem_of_nil in Hin.
    + intros p Hp. by apply elem_of_nil in Hp.
  - cbn [manual_loop].
    destruct (decide (0 <= gpuIndex /\ gpuIndex < count)) as [Hin|Hout].
    + rewrite filter_cons_True by done.
      destruct (call_setPowerLimit gpuIndex pl s) as [[info err] s1] eqn:E.
      destruct err as [e|].
      * destruct (IH count acc (log_Printf (LogSetFailed gpuIndex e) s1))
          as (outs & Ho & Hno).
        exists ((gpuIndex, pl, (info, Some e)) :: outs). split; [by eapply loop_outcome_step|].
        intros p Hp Hnp. apply elem_of_cons in Hp as [->|Hp]; [done|eauto].
      * destruct (IH count (acc ++ [info]) s1) as (outs & Ho & Hno).
        exists ((gpuIndex, pl, (info, None)) :: outs). split; [by eapply loop_outcome_step|].
        intros p Hp Hnp. apply elem_of_cons in Hp as [->|Hp]; [done|eauto].
    + rewrite filter_cons_False by done.
      destruct (IH count acc (log_Printf (LogNoSuchGPU gpuIndex) s))
        as (outs & Ho & Hno).
      exists outs. split.
      * destruct Ho as (Hc & Ha & Hr & Hs & Hg & Hl & Hf).
        repeat split; try done.
        etrans; [|exact Hl]. simpl. by apply prefix_app_r.
      * intros p Hp Hnp. apply elem_of_cons in Hp as [->|Hp]; [|eauto].
        destruct Ho as (_ & _ & _ & _ & _ & Hl & _).
        eapply elem_of_prefix; [|exact Hl]. simpl. apply elem_of_app.
        right. by left.
Qed.

End Dispatch.

(** ** The dispatcher against the setter called in sequence *)

Section SetterRun.

Context {G : Gateway}.

Implicit Types (s : World).

Lemma same_hardware_refl s : same_hardware s s.
Proof. by repeat split. Qed.

Lemma same_hardware_log s1 s2 e :
  same_hardware s1 s2 -> same_hardware (log_Printf e s1) s2.
Proof. intros (? & ? & ?). by repeat split. Qed.

(** The setter reads nothing but the driver session: on worlds with the
    same hardware it returns the same pair and leaves the same hardware. *)
Lemma setPowerLimit_same_hardware s1 s2 index w :
  same_hardware s1 s2 ->
  fst (setPowerLimit index w s1) = fst (setPowerLimit index w s2) /\
  same_hardware (snd (setPowerLimit index w s1)) (snd (setPowerLimit index w s2)).
Proof.
  intros Hsame. pose proof Hsame as (Hh & Hc & Hw).
  unfold setPowerLimit. rewrite Hh.
  destruct (nvml_DeviceGetHandleByIndex (hw s2) index) as [d r1].
  destruct (decide (r1 <> SUCCESS)); [done|].
  destruct (nvml_DeviceGetPowerManagementMode (hw s2) d) as [m r2].
  destruct (decide (r2 <> SUCCESS)); [done|].
  destruct (decide (m <> FEATURE_ENABLED)); [done|].
  destruct (nvml_DeviceGetPowerManagementLimitConstraints (hw s2) d)
    as [[lo hi] r3].
  destruct (decide (r3 <> SUCCESS)); [done|].
  destruct (clamp index w lo hi (u32_mul w 1000)) as [v line].
  assert (Hl : forall s, hw (match line with
                             | Some e => log_Printf e s
                             | None => s
                             end) = hw s) by (destruct line; reflexivity).
  rewrite !Hl, Hh.
  destruct (nvml_DeviceSetPowerManagementLimit (hw s2) d v) as [ret g'].
  destruct (decide (ret <> SUCCESS)); (split; [reflexivity|]);
    destruct line; repeat split; simpl; congruence.
Qed.

(** One call from a loop, on a world with the hardware of [s0]: it returns
    what the setter returns on [s0], enters that in [calls], and leaves the
    hardware the setter leaves. *)
Lemma call_setPowerLimit_run s s0 index w :
  same_hardware s s0 ->
  fst (call_setPowerLimit index w s) = fst (setPowerLimit index w s0) /\
  calls (snd (call_setPowerLimit index w s))
    = calls s ++ [(index, w, fst (setPowerLimit index w s0))] /\
  same_hardware (snd (call_setPowerLimit index w s))
                (snd (setPowerLimit index w s0)).
Proof.
  intros Hsame.
  destruct (setPowerLimit_same_hardware s s0 index w Hsame) as (Hr & Hh).
  destruct (setPowerLimit_frame s index w) as [Hc _].
  unfold call_setPowerLimit.
  destruct (setPowerLimit index w s) as [r s1]. simpl in *.
  rewrite Hc, Hr. split; [reflexivity|]. split; [reflexivity|].
  destruct Hh as (? & ? & ?). by repeat split.
Qed.

Lemma setter_run_cons index w rest s :
  setter_run ((index, w) :: rest) s
  = ((index, w, fst (setPowerLimit index w s))
       :: fst (setter_run rest (snd (setPowerLimit index w s))),
     snd (setter_run rest (snd (setPowerLimit index w s)))).
Proof.
  cbn [setter_run]. destruct (setPowerLimit index w s) as [r s1].
  cbn [fst snd]. destruct (setter_run rest s1) as [outs s2]. reflexivity.
Qed.

Lemma all_loop_run n : forall i powerLimit acc s s0,
  same_hardware s s0 ->
  let args := (fun j => (j, powerLimit)) <$> seqZ i (Z.of_nat n) in
  calls (snd (all_loop n i powerLimit acc s))
    = calls s ++ fst (setter_run args s0) /\
  same_hardware (snd (all_loop n i powerLimit acc s)) (snd (setter_run args s0)).
Proof.
  induction n as [|n IH]; intros i pl acc s s0 Hsame args; subst args.
  - simpl. by rewrite app_nil_r.
  - rewrite seqZ_cons by lia.
    replace (Z.pred (Z.of_nat (S n))) with (Z.of_nat n) by lia.
    replace (Z.succ i) with (i + 1) by lia.
    rewrite fmap_cons, setter_run_cons. cbn [all_loop fst snd].
    destruct (call_setPowerLimit_run s s0 i pl Hsame) as (Hr & Hc & Hh).
    destruct (call_setPowerLimit i pl s) as [[info err] s1].
    simpl in Hr, Hc, Hh.
    destruct err as [e|].
    + destruct (IH (i + 1) pl acc (log_Printf (LogSetFailed i e) s1)
                  (snd (setPowerLimit i pl s0))
                  (same_hardware_log _ _ _ Hh)) as (Hc' & Hh').
      split; [|exact Hh']. rewrite Hc'. simpl. by rewrite Hc, <- app_assoc.
    + destruct (IH (i + 1) pl (acc ++ [info]) s1
                  (snd (setPowerLimit i pl s0)) Hh) as (Hc' & Hh').
      split; [|exact Hh']. rewrite Hc'. by rewrite Hc, <- app_assoc.
Qed.

Lemma manual_loop_run entries : forall count acc s s0,
  same_hardware s s0 ->
  let args := filter (fun p => 0 <= fst p /\ fst p < count) entries in
  calls (snd (manual_loop entries count acc s))
    = calls s ++ fst (setter_run args s0) /\
  same_hardware (snd (manual_loop entries count acc s))
                (snd (setter_run args s0)).
Proof.
  induction entries as [|[gpuIndex pl] rest IH];
    intros count acc s s0 Hsame args; subst args.
  - simpl. by rewrite app_nil_r.
  - cbn [manual_loop].
    destruct (decide (0 <= gpuIndex /\ gpuIndex < count)) as [Hin|Hout].
    + rewrite filter_cons_True by done. rewrite setter_run_cons. cbn [fst snd].
      destruct (call_setPowerLimit_run s s0 gpuIndex pl Hsame)
        as (Hr & Hc & Hh).
      destruct (call_setPowerLimit gpuIndex pl s) as [[info err] s1].
      simpl in Hr, Hc, Hh.
      destruct err as [e|].
      * destruct (IH count acc (log_Printf (LogSetFailed gpuIndex e) s1)
                    (snd (setPowerLimit gpuIndex pl s0))
                    (same_hardware_log _ _ _ Hh)) as (Hc' & Hh').
        split; [|exact Hh']. rewrite Hc'. simpl. by rewrite Hc, <- app_assoc.
      * destruct (IH count (acc ++ [info]) s1
                    (snd (setPowerLimit gpuIndex pl s0)) Hh) as (Hc' & Hh').
        split; [|exact Hh']. rewrite Hc'. by rewrite Hc, <- app_assoc.
    + rewrite filter_cons_False by done.
      destruct (IH count acc (log_Printf (LogNoSuchGPU gpuIndex) s) s0
                  (same_hardware_log _ _ _ Hsame)) as (Hc' & Hh').
      split; [|exact Hh']. by rewrite Hc'.
Qed.

Lemma gpu_args_loop_run args : forall count out s s0,
  same_hardware s s0 ->
  let pairs := filter (fun p => 0 <= fst p /\ fst p < count)
                 (fst (gpu_requests args)) in
  calls (snd (gpu_args_loop args count out s))
    = calls s ++ fst (setter_run pairs s0) /\
  same_hardware (snd (gpu_args_loop args count out s))
                (snd (setter_run pairs s0)).
Proof.
  induction args as [|arg rest IH]; intros count out s s0 Hsame pairs;
    subst pairs.
  - simpl. by rewrite app_nil_r.
  - cbn [gpu_args_loop gpu_requests].
    destruct (HasPrefix arg "--gpu"); [|by apply IH].
    destruct (parseGPUParam arg) as [[index limit] [e|]].
    { simpl. by rewrite app_nil_r. }
    cbn [fst snd].
    destruct (decide (0 <= index /\ index < count)) as [Hin|Hout].
    + rewrite filter_cons_True by done. rewrite setter_run_cons. cbn [fst snd].
      destruct (call_setPowerLimit_run s s0 index limit Hsame)
        as (Hr & Hc & Hh).
      destruct (call_setPowerLimit index limit s) as [[info err] s1].
      simpl in Hr, Hc, Hh.
      destruct err as [e|].
      * destruct (IH count (out ++ [PrintSetFailed index e]) s1
                    (snd (setPowerLimit index limit s0)) Hh) as (Hc' & Hh').
        split; [|exact Hh']. rewrite Hc'. by rewrite Hc, <- app_assoc.
      * destruct (IH count
                    (out ++ [PrintLimitSet (Index info) (Name info)
                               (PowerLimit info)]) s1
                    (snd (setPowerLimit index limit s0)) Hh) as (Hc' & Hh').
        split; [|exact Hh']. rewrite Hc'. by rewrite Hc, <- app_assoc.
    + rewrite filter_cons_False by done. by apply IH.
Qed.

End SetterRun.

(** ** List facts used for the "all" mode *)

Lemma filter_all {A} (P : A -> Prop) `{forall x, Decision (P x)} (l : list A) :
  Forall P l -> filter P l = l.
Proof.
  induction 1 as [|x l Hx Hl IH]; [reflexivity|].
  by rewrite filter_cons_True, IH.
Qed.

Lemma filter_ne_seqZ k n :
  0 <= k < n ->
  filter (fun j => j <> k) (seqZ 0 n) = seqZ 0 k ++ seqZ (k + 1) (n - k - 1).
Proof.
  intros Hk. replace n with (k + (n - k)) at 1 by lia.
  rewrite seqZ_app by lia. rewrite (seqZ_cons (0 + k)) by lia.
  rewrite filter_app, filter_cons_False by (simpl; lia).
  replace (Z.succ (0 + k)) with (k + 1) by lia.
  replace (Z.pred (n - k)) with (n - k - 1) by lia.
  rewrite !filter_all; [reflexivity| |]; apply Forall_seqZ; lia.
Qed.

Lemma fmap_fst_pair_with {A B} (b : B) (l : list A) :
  ((fun a => (a, b)) <$> l).*1 = l.
Proof. induction l as [|a l IH]; [reflexivity|]. by rewrite !fmap_cons, IH. Qed.

Lemma seqZ_to_nat n : seqZ 0 (Z.of_nat (Z.to_nat n)) = seqZ 0 n.
Proof.
  destruct (decide (0 <= n)); [by rewrite Z2Nat.id|].
  rewrite !seqZ_nil; [reflexivity|lia|lia].
Qed.

Lemma successes_Index_filter (outs : list (Z * Z * (GPUInfo * option Error))) k :
  Forall call_sound outs ->
  (forall c, c ∈ outs -> (is_Some (snd (snd c)) <-> fst (fst c) = k)) ->
  Index <$> successes outs = filter (fun j => j <> k) (outs.*1.*1).
Proof.
  induction 1 as [|[[i w] [info err]] outs Hs Hrest IH]; intros Hk;
    [reflexivity|].
  assert (Hhd := Hk (i, w, (info, err)) ltac:(by left)). simpl in Hhd.
  assert (IH' := IH (fun c Hc => Hk c ltac:(by right))).
  rewrite !fmap_cons. cbn [fst].
  destruct err as [e|].
  - rewrite successes_cons_err, filter_cons_False; [exact IH'|].
    intros Hne. apply Hne, Hhd. by eexists.
  - rewrite successes_cons_ok, fmap_cons, filter_cons_True.
    + rewrite IH'. f_equal. by apply Hs.
    + intros Heq. apply Hhd in Heq. by destruct Heq.
Qed.

(** ** The dispatcher *)

(** C6: a request whose mode is neither "all" nor "manual" takes the final
    branch of the dispatch: no call to [setPowerLimit] is made, no limit
    write is issued and the world is left as it was; the handler answers
    400 "Invalid mode" once the device count has been read. *)
Theorem unknown_mode_touches_no_device {G : Gateway} (s : World) request
    entries count :
  Mode request <> "all"%string ->
  Mode request <> "manual"%string ->
  dispatch request entries count s = (None, s) /\
  calls (snd (setPowerLimitsHandler (Some request) entries s)) = calls s /\
  writes (snd (setPowerLimitsHandler (Some request) entries s)) = writes s /\
  hw (snd (setPowerLimitsHandler (Some request) entries s)) = hw s /\
  (snd (nvml_DeviceGetCount (hw s)) = SUCCESS ->
   fst (setPowerLimitsHandler (Some request) entries s)
     = mkResponse 400 InvalidMode).
Proof.
  intros Hall Hman.
  assert (Hd : forall c, dispatch request entries c s = (None, s)).
  { intros c. unfold dispatch.
    destruct (decide (Mode request = "all"%string)); [contradiction|].
    destruct (decide (Mode request = "manual"%string)); [contradiction|].
    reflexivity. }
  split; [apply Hd|]. unfold setPowerLimitsHandler.
  destruct (nvml_DeviceGetCount (hw s)) as [c r].
  destruct (decide (r <> SUCCESS)) as [Hr|Hr]; simpl.
  - repeat split; try reflexivity. intros ->. contradiction.
  - rewrite Hd. simpl. repeat split; reflexivity.
Qed.

Lemma unknown_mode_touches_no_device_witness :
  let request := mkRequest "auto" 200 ∅ in
  dispatch request [] 3 three_gpus_middle_rejects
    = (None, three_gpus_middle_rejects) /\
  fst (setPowerLimitsHandler (Some request) [] three_gpus_middle_rejects)
    = mkResponse 400 InvalidMode.
Proof.
  intros request.
  destruct (unknown_mode_touches_no_device three_gpus_middle_rejects request
              [] 3 ltac:(discriminate) ltac:(discriminate))
    as (Hd & _ & _ & _ & Hresp).
  split; [exact Hd|]. exact (Hresp eq_refl).
Defined.

(** C7: in mode "all" the dispatcher calls [setPowerLimit] once for each
    index 0, 1, ..., count-1, in that order, each time with the request's
    power limit, each call on the world the one before it left, so that the
    writes issued and the driver session at the end are those of these
    calls made one after the other; a failing call is logged and the loop
    goes on; the list returned holds the records of the calls that
    succeeded, so when the call for device [k] is the only one that fails
    it has [count - 1] records, those of every device but [k]. *)
Theorem all_mode_calls_every_device_in_order {G : Gateway} (s : World)
    request entries count :
  Mode request = "all"%string ->
  exists outs,
    calls (snd (dispatch request entries count s)) = calls s ++ outs /\
    outs.*1 = (fun i => (i, ReqPowerLimit request)) <$> seqZ 0 count /\
    fst (dispatch request entries count s) = Some (successes outs) /\
    outs = fst (setter_run
                  ((fun i => (i, ReqPowerLimit request)) <$> seqZ 0 count) s) /\
    hw (snd (dispatch request entries count s))
      = hw (snd (setter_run
                   ((fun i => (i, ReqPowerLimit request)) <$> seqZ 0 count) s)) /\
    writes (snd (dispatch request entries count s))
      = writes (snd (setter_run
                       ((fun i => (i, ReqPowerLimit request)) <$> seqZ 0 count)
                       s)) /\
    Forall (fun c => exists s0,
              snd c = fst (setPowerLimit (fst (fst c)) (snd (fst c)) s0)) outs /\
    (forall index w info e,
       (index, w, (info, Some e)) ∈ outs ->
       LogSetFailed index e ∈ logged (snd (dispatch request entries count s))) /\
    (forall k,
       0 <= k < count ->
       (forall c, c ∈ outs -> (is_Some (snd (snd c)) <-> fst (fst c) = k)) ->
       length (successes outs) = Z.to_nat (count - 1) /\
       Index <$> successes outs = seqZ 0 k ++ seqZ (k + 1) (count - k - 1)).
Proof.
  intros Hmode. unfold dispatch.
  destruct (decide (Mode request = "all"%string)); [|contradiction].
  destruct (all_loop_spec (Z.to_nat count) 0 (ReqPowerLimit request) [] s)
    as (outs & Hc & Ha & Hr & Hs & Hg & _ & Hf).
  destruct (all_loop_run (Z.to_nat count) 0 (ReqPowerLimit request) [] s s
              (same_hardware_refl s)) as (Hrun & Hh & _ & Hw).
  rewrite seqZ_to_nat in Ha, Hrun, Hh, Hw.
  destruct (all_loop (Z.to_nat count) 0 (ReqPowerLimit request) [] s)
    as [updatedGPUs s'].
  cbn [fst snd] in *. rewrite Hc in Hrun. apply app_inv_head in Hrun.
  exists outs.
  split; [exact Hc|]. split; [exact Ha|]. split; [by rewrite Hr|].
  split; [exact Hrun|]. split; [exact Hh|]. split; [exact Hw|].
  split; [exact Hg|]. split; [exact Hf|].
  intros k Hk Honly.
  assert (Hidx : Index <$> successes outs
                 = seqZ 0 k ++ seqZ (k + 1) (count - k - 1)).
  { rewrite (successes_Index_filter outs k Hs) by done.
    rewrite Ha, fmap_fst_pair_with. apply filter_ne_seqZ. lia. }
  split; [|exact Hidx].
  rewrite <- (length_fmap Index), Hidx, length_app, !length_seqZ. lia.
Qed.

Lemma all_mode_calls_every_device_in_order_witness :
  let s' := snd (dispatch (req_all 200) [] 3 three_gpus_middle_rejects) in
  length (successes (calls s')) = Z.to_nat (3 - 1) /\
  Index <$> successes (calls s') = seqZ 0 1 ++ seqZ (1 + 1) (3 - 1 - 1) /\
  writes s' = [(0%nat, 200000); (1%nat, 200000); (2%nat, 200000)] /\
  hw s' = hw (snd (setter_run [(0, 200); (1, 200); (2, 200)]
                     three_gpus_middle_rejects)).
Proof.
  intros s'.
  destruct (all_mode_calls_every_device_in_order three_gpus_middle_rejects
              (req_all 200) [] 3 eq_refl)
    as (outs & Hc & _ & _ & _ & Hh & Hw & _ & _ & Hk).
  change (calls s' = outs) in Hc. subst outs.
  assert (Honly : forall c, c ∈ calls s' ->
            (is_Some (snd (snd c)) <-> fst (fst c) = 1)).
  { intros c Hin. vm_compute in Hin.
    repeat (apply elem_of_cons in Hin as [->|Hin]);
      [| |  | by apply elem_of_nil in Hin]; simpl;
      (split; [intros [x Hx]; (discriminate || reflexivity) | intros Heq;
               (discriminate || by eexists)]). }
  destruct (Hk 1 ltac:(lia) Honly) as [Hlen Hidx].
  split; [exact Hlen|]. split; [exact Hidx|].
  split; [exact (eq_trans Hw eq_refl) | exact Hh].
Defined.

(** The run of the witness: the write to device 1 is rejected, the other two
    boards are set to 200 W and theirs are the two records returned. *)
Example all_mode_middle_rejects :
  fst (dispatch (req_all 200) [] 3 three_gpus_middle_rejects)
    = Some [mkGPUInfo 0 "GPU0" 200 100 300 55 true;
            mkGPUInfo 2 "GPU2" 200 150 350 55 true] /\
  logged (snd (dispatch (req_all 200) [] 3 three_gpus_middle_rejects))
    = [LogSetFailed 1 (ErrSetLimit (ERROR 4))] /\
  writes (snd (dispatch (req_all 200) [] 3 three_gpus_middle_rejects))
    = [(0%nat, 200000); (1%nat, 200000); (2%nat, 200000)].
Proof. vm_compute. repeat split; congruence. Qed.

Lemma NoDup_fmap_inj_on {A B} (f : A -> B) (l : list A) x y :
  NoDup (f <$> l) -> x ∈ l -> y ∈ l -> f x = f y -> x = y.
Proof.
  induction l as [|a l IH]; intros Hnd Hx Hy Heq.
  - by apply elem_of_nil in Hx.
  - rewrite fmap_cons in Hnd. apply NoDup_cons in Hnd as [Hnotin Hnd].
    apply elem_of_cons in Hx as [->|Hx]; apply elem_of_cons in Hy as [->|Hy].
    + reflexivity.
    + exfalso. apply Hnotin. rewrite Heq. by apply list_elem_of_fmap_2.
    + exfalso. apply Hnotin. rewrite <- Heq. by apply list_elem_of_fmap_2.
    + by apply IH.
Qed.

(** C8: in mode "manual", whatever the order in which the range visits the
    map, an entry whose index lies outside [0, count) is logged with a
    warning, no call to [setPowerLimit] is made for it and no returned
    record is for that index; an entry whose index lies inside is passed to
    [setPowerLimit] once, with its wattage, and a record for that index is
    among those returned exactly when that call returned no error.  The
    calls are made one after the other in the visiting order, each on the
    world the one before it left: the writes issued and the driver session
    at the end are those of these calls. *)
Theorem manual_mode_skips_unknown_sets_known {G : Gateway} (s : World)
    request entries count :
  Mode request = "manual"%string ->
  entries ≡ₚ map_to_list (ManualLimits request) ->
  exists outs,
    calls (snd (dispatch request entries count s)) = calls s ++ outs /\
    fst (dispatch request entries count s) = Some (successes outs) /\
    outs = fst (setter_run
                  (filter (fun p => 0 <= fst p /\ fst p < count) entries) s) /\
    hw (snd (dispatch request entries count s))
      = hw (snd (setter_run
                   (filter (fun p => 0 <= fst p /\ fst p < count) entries) s)) /\
    writes (snd (dispatch request entries count s))
      = writes (snd (setter_run
                       (filter (fun p => 0 <= fst p /\ fst p < count) entries)
                       s)) /\
    Forall (fun c => exists s0,
              snd c = fst (setPowerLimit (fst (fst c)) (snd (fst c)) s0)) outs /\
    forall index w,
      ManualLimits request !! index = Some w ->
      (~ (0 <= index /\ index < count) ->
         LogNoSuchGPU index ∈ logged (snd (dispatch request entries count s)) /\
         (forall w' r, (index, w', r) ∉ outs) /\
         (forall info, info ∈ successes outs -> Index info <> index)) /\
      (0 <= index /\ index < count ->
         exists r,
           (index, w, r) ∈ outs /\
           (forall w' r', (index, w', r') ∈ outs -> w' = w /\ r' = r) /\
           ((exists info, info ∈ successes outs /\ Index info = index)
              <-> snd r = None) /\
           (snd r = None -> fst r ∈ successes outs)).
Proof.
  intros Hmode Hperm. unfold dispatch. rewrite Hmode.
  destruct (decide ("manual"%string = "all"%string)); [discriminate|].
  destruct (decide ("manual"%string = "manual"%string)); [|contradiction].
  destruct (manual_loop_spec entries count [] s)
    as (outs & (Hc & Ha & Hr & Hs & Hg & _ & _) & Hno).
  destruct (manual_loop_run entries count [] s s (same_hardware_refl s))
    as (Hrun & Hh & _ & Hw).
  destruct (manual_loop entries count [] s) as [updatedGPUs s'].
  cbn [fst snd] in *. rewrite Hc in Hrun. apply app_inv_head in Hrun.
  simpl in Hr. exists outs.
  split; [exact Hc|]. split; [by rewrite Hr|].
  split; [exact Hrun|]. split; [exact Hh|]. split; [exact Hw|].
  split; [exact Hg|].
  (* the entries visited are those of the map, each index once *)
  assert (Hmem : forall p, p ∈ entries <-> ManualLimits request !! fst p = Some (snd p)).
  { intros [i w]. rewrite Hperm. apply elem_of_map_to_list. }
  assert (Hnd : NoDup (outs.*1.*1)).
  { rewrite Ha. apply NoDup_fmap_fst.
    - intros i w1 w2 H1 H2.
      apply list_elem_of_filter in H1 as [_ H1], H2 as [_ H2].
      apply Hmem in H1, H2. simpl in *. congruence.
    - apply NoDup_filter. rewrite Hperm. apply NoDup_map_to_list. }
  (* a recorded call was made for an entry of the map, in range *)
  assert (Hcall : forall i w' r, (i, w', r) ∈ outs ->
            (0 <= i /\ i < count) /\ ManualLimits request !! i = Some w').
  { intros i w' r Hin.
    assert (H1 : (i, w') ∈ outs.*1)
      by (apply list_elem_of_fmap; by exists (i, w', r)).
    rewrite Ha in H1. apply list_elem_of_filter in H1 as [Hrange H1].
    split; [exact Hrange|]. by apply (Hmem (i, w')). }
  (* a returned record comes from a successful recorded call for its index *)
  assert (Hrec : forall info, info ∈ successes outs ->
            exists w', (Index info, w', (info, None)) ∈ outs).
  { intros info Hin. apply elem_of_successes in Hin as (i & w' & Hin).
    exists w'. rewrite Forall_forall in Hs.
    specialize (Hs _ Hin eq_refl). simpl in Hs. by rewrite Hs. }
  intros index w Hlook. split.
  - intros Hout. split; [|split].
    + apply (Hno (index, w)); [by apply Hmem|exact Hout].
    + intros w' r Hin. by destruct (Hcall _ _ _ Hin) as [Hrange _].
    + intros info Hin Heq. destruct (Hrec info Hin) as [w' Hin'].
      rewrite Heq in Hin'. by destruct (Hcall _ _ _ Hin') as [Hrange _].
  - intros Hrange.
    assert (H1 : (index, w) ∈ outs.*1).
    { rewrite Ha. apply list_elem_of_filter. split; [exact Hrange|].
      by apply Hmem. }
    apply list_elem_of_fmap in H1 as ([[i' w'] r] & Heq & Hin).
    simpl in Heq. injection Heq as <- <-.
    assert (Huniq : forall w' r', (index, w', r') ∈ outs -> w' = w /\ r' = r).
    { intros w' r' Hin'.
      assert (E : (index, w', r') = (index, w, r))
        by (eapply (NoDup_fmap_inj_on (fst ∘ fst));
            [by rewrite list_fmap_compose|done..]).
      by injection E. }
    exists r. split; [exact Hin|]. split; [exact Huniq|]. split; [split|].
    + intros (info & Hi & Hidx). destruct (Hrec info Hi) as [w' Hin'].
      rewrite Hidx in Hin'. destruct (Huniq _ _ Hin') as [_ <-]. reflexivity.
    + intros Hok. destruct r as [info err]. simpl in Hok. subst err.
      exists info. split; [apply elem_of_successes; eauto|].
      rewrite Forall_forall in Hs. exact (Hs _ Hin eq_refl).
    + intros Hok. destruct r as [info err]. simpl in *. subst err.
      apply elem_of_successes. eauto.
Qed.

Lemma manual_mode_skips_unknown_sets_known_witness :
  exists outs,
    calls (snd (dispatch (req_manual three_limits) (map_to_list three_limits)
                  3 three_gpus_middle_rejects)) = outs /\
    LogNoSuchGPU 7
      ∈ logged (snd (dispatch (req_manual three_limits)
                       (map_to_list three_limits) 3 three_gpus_middle_rejects)) /\
    (forall w' r, (7, w', r) ∉ outs) /\
    (exists r, (0, 150, r) ∈ outs) /\
    writes (snd (dispatch (req_manual three_limits) (map_to_list three_limits)
                   3 three_gpus_middle_rejects))
      = [(1%nat, 180000); (0%nat, 150000)].
Proof.
  destruct (manual_mode_skips_unknown_sets_known three_gpus_middle_rejects
              (req_manual three_limits) (map_to_list three_limits) 3
              eq_refl ltac:(reflexivity))
    as (outs & Hc & _ & _ & _ & Hw & _ & Hent).
  exists outs. split; [exact Hc|].
  destruct (Hent 7 200 eq_refl) as [Hskip _].
  destruct (Hskip ltac:(lia)) as (Hlog & Hnone & _).
  destruct (Hent 0 150 eq_refl) as [_ Hset].
  destruct (Hset ltac:(lia)) as (r & Hin & _).
  split; [exact Hlog|]. split; [exact Hnone|]. split; [by exists r|].
  exact (eq_trans Hw eq_refl).
Defined.

(** The run of the witness: the range visits 7, 1, 0; index 7 is skipped,
    the write to device 1 is rejected, device 0 is set to 150 W. *)
Example manual_mode_run :
  map_to_list three_limits = [(7, 200); (1, 180); (0, 150)] /\
  fst (dispatch (req_manual three_limits) (map_to_list three_limits) 3
         three_gpus_middle_rejects)
    = Some [mkGPUInfo 0 "GPU0" 150 100 300 55 true] /\
  logged (snd (dispatch (req_manual three_limits) (map_to_list three_limits) 3
                 three_gpus_middle_rejects))
    = [LogNoSuchGPU 7; LogSetFailed 1 (ErrSetLimit (ERROR 4))] /\
  writes (snd (dispatch (req_manual three_limits) (map_to_list three_limits) 3
                 three_gpus_middle_rejects))
    = [(1%nat, 180000); (0%nat, 150000)].
Proof. vm_compute. repeat split; congruence. Qed.

(** ** Idempotence against the echoing gateway *)






(** Setting the 250 W board to 120 W twice: the same record both times. *)
Example setPowerLimit_twice_run :
  fst (setPowerLimit 0 120 one_gpu)
    = (mkGPUInfo 0 "GPU0" 120 100 300 55 true, None) /\
  fst (setPowerLimit 0 120 (snd (setPowerLimit 0 120 one_gpu)))
    = (mkGPUInfo 0 "GPU0" 120 100 300 55 true, None) /\
  writes (snd (setPowerLimit 0 120 (snd (setPowerLimit 0 120 one_gpu))))
    = [(0%nat, 120000); (0%nat, 120000)].
Proof. vm_compute. repeat split; congruence. Qed.

(** ** More on the setter and the reader *)

(** X1: once handle, mode and constraints are read, [setPowerLimit] issues
    exactly one limit write; when [w * 1000] fits a [uint32] its value is
    the bound that [w * 1000] crosses, or [w * 1000]; and when the lower
    bound is not above the upper one the value lies within the bounds,
    whatever [w] is. *)
Theorem setPowerLimit_writes_clamped_value {G : Gateway} (s : World)
    index w d lo hi :
  nvml_DeviceGetHandleByIndex (hw s) index = (d, SUCCESS) ->
  nvml_DeviceGetPowerManagementMode (hw s) d = (FEATURE_ENABLED, SUCCESS) ->
  nvml_DeviceGetPowerManagementLimitConstraints (hw s) d = (lo, hi, SUCCESS) ->
  exists mw,
    writes (snd (setPowerLimit index w s)) = writes s ++ [(d, mw)] /\
    (lo <= hi -> lo <= mw <= hi) /\
    (0 <= w * 1000 < u32_modulus -> mw = spec_written lo hi w).
Proof.
  intros Hh Hm Hc.
  destruct (setPowerLimit_write s index w d lo hi Hh Hm Hc) as (Hw & _).
  eexists. split; [exact Hw|]. split; [apply clamp_in_range|].
  intros Hr. unfold clamp, spec_written, u32_mul.
  rewrite (Z.mod_small _ _ Hr).
  destruct (decide (w * 1000 < lo)); [reflexivity|].
  destruct (decide (w * 1000 > hi)); reflexivity.
Qed.

Lemma setPowerLimit_writes_clamped_value_witness :
  exists mw,
    writes (snd (setPowerLimit 0 500 one_gpu)) = [(0%nat, mw)] /\
    (100000 <= 300000 -> 100000 <= mw <= 300000) /\
    (0 <= 500 * 1000 < u32_modulus -> mw = spec_written 100000 300000 500).
Proof.
  exact (setPowerLimit_writes_clamped_value one_gpu 0 500 0%nat 100000 300000
           eq_refl eq_refl eq_refl).
Defined.

(** X2: [setPowerLimit] never touches [gpuCache] and issues at most one
    write.  Either it issues none, and then it returns the zero record with
    an error and leaves the world, log included, exactly as it was; or it
    issues one, the session becomes what the driver made of that write, and
    the result is the rejected-write error or a fresh [getGPUInfo]. *)
Theorem setPowerLimit_outcomes {G : Gateway} (s : World) index w :
  gpuCache (snd (setPowerLimit index w s)) = gpuCache s /\
  ((snd (setPowerLimit index w s) = s /\
    fst (fst (setPowerLimit index w s)) = GPUInfo_zero /\
    is_Some (snd (fst (setPowerLimit index w s))))
   \/
   (exists d mw,
      writes (snd (setPowerLimit index w s)) = writes s ++ [(d, mw)] /\
      hw (snd (setPowerLimit index w s))
        = snd (nvml_DeviceSetPowerManagementLimit (hw s) d mw) /\
      fst (setPowerLimit index w s) =
        (let ret := fst (nvml_DeviceSetPowerManagementLimit (hw s) d mw) in
         if decide (ret <> SUCCESS)
         then (GPUInfo_zero, Some (ErrSetLimit ret))
         else getGPUInfo
                (snd (nvml_DeviceSetPowerManagementLimit (hw s) d mw)) index))).
Proof.
  destruct (nvml_DeviceGetHandleByIndex (hw s) index) as [d r1] eqn:Hh.
  destruct (decide (r1 = SUCCESS)) as [->|H1].
  2: { destruct (setPowerLimit_no_write s index w) as (E & Hz & He);
         [rewrite Hh; by left|]. split; [by rewrite E|]. left. done. }
  destruct (nvml_DeviceGetPowerManagementMode (hw s) d) as [m r2] eqn:Hm.
  destruct (decide (r2 = SUCCESS)) as [->|H2].
  2: { destruct (setPowerLimit_no_write s index w) as (E & Hz & He);
         [rewrite Hh, Hm; right; by left|]. split; [by rewrite E|]. left. done. }
  destruct (decide (m = FEATURE_ENABLED)) as [->|H3].
  2: { destruct (setPowerLimit_no_write s index w) as (E & Hz & He);
         [rewrite Hh, Hm; right; right; by left|]. split; [by rewrite E|]. left. done. }
  destruct (nvml_DeviceGetPowerManagementLimitConstraints (hw s) d)
    as [[lo hi] r3] eqn:Hc.
  destruct (decide (r3 = SUCCESS)) as [->|H4].
  2: { destruct (setPowerLimit_no_write s index w) as (E & Hz & He);
         [rewrite Hh, Hm, Hc; right; right; by right|]. split; [by rewrite E|]. left. done. }
  destruct (setPowerLimit_write s index w d lo hi Hh Hm Hc)
    as (Hw & Hhw & Hcache & Hres).
  split; [exact Hcache|]. right.
  exists d, (fst (clamp index w lo hi (u32_mul w 1000))).
  split; [exact Hw|]. split; [exact Hhw|]. exact Hres.
Qed.

(** X3: a write that the driver accepts is still reported as a failure when
    the read that follows it fails: [setPowerLimit] returns the error of
    that read although the limit has been written and the session
    changed. *)
Theorem setPowerLimit_error_after_accepted_write {G : Gateway} (s : World)
    index w d lo hi g' e :
  nvml_DeviceGetHandleByIndex (hw s) index = (d, SUCCESS) ->
  nvml_DeviceGetPowerManagementMode (hw s) d = (FEATURE_ENABLED, SUCCESS) ->
  nvml_DeviceGetPowerManagementLimitConstraints (hw s) d = (lo, hi, SUCCESS) ->
  nvml_DeviceSetPowerManagementLimit (hw s) d
    (fst (clamp index w lo hi (u32_mul w 1000))) = (SUCCESS, g') ->
  snd (getGPUInfo g' index) = Some e ->
  snd (fst (setPowerLimit index w s)) = Some e /\
  hw (snd (setPowerLimit index w s)) = g' /\
  writes (snd (setPowerLimit index w s))
    = writes s ++ [(d, fst (clamp index w lo hi (u32_mul w 1000)))].
Proof.
  intros Hh Hm Hc Hset He.
  destruct (setPowerLimit_write s index w d lo hi Hh Hm Hc)
    as (Hw & Hhw & _ & Hres).
  rewrite Hset in Hhw, Hres. simpl in Hhw, Hres.
  destruct (decide (SUCCESS <> SUCCESS)) as [c|_]; [congruence|].
  by rewrite Hres, He.
Qed.

Lemma setPowerLimit_error_after_accepted_write_witness :
  let s := mock_world [limit_unreadable] in
  snd (fst (setPowerLimit 0 200 s)) = Some (ErrCurrentLimit (ERROR 999)) /\
  hw (snd (setPowerLimit 0 200 s))
    = snd (mock_set (hw s) 0%nat 200000) /\
  writes (snd (setPowerLimit 0 200 s)) = [(0%nat, 200000)].
Proof.
  intros s.
  exact (setPowerLimit_error_after_accepted_write s 0 200 0%nat 100000 300000
           (snd (mock_set (hw s) 0%nat 200000)) (ErrCurrentLimit (ERROR 999))
           eq_refl eq_refl eq_refl eq_refl eq_refl).
Defined.

(** X4: [getGPUInfo] returns no error exactly when the handle and the
    power-management mode are read and, for an enabled device, so are the
    current limit and the constraints; a failing name or usage read never
    makes it fail. *)
Theorem getGPUInfo_succeeds_iff {G : Gateway} (g : Session) index :
  let d := fst (nvml_DeviceGetHandleByIndex g index) in
  snd (getGPUInfo g index) = None <->
  snd (nvml_DeviceGetHandleByIndex g index) = SUCCESS /\
  snd (nvml_DeviceGetPowerManagementMode g d) = SUCCESS /\
  (fst (nvml_DeviceGetPowerManagementMode g d) = FEATURE_ENABLED ->
   snd (nvml_DeviceGetPowerManagementLimit g d) = SUCCESS /\
   snd (nvml_DeviceGetPowerManagementLimitConstraints g d) = SUCCESS).
Proof.
  unfold getGPUInfo.
  destruct (nvml_DeviceGetHandleByIndex g index) as [d r1]. simpl.
  destruct (decide (r1 <> SUCCESS)) as [H1|H1].
  { simpl. split; [discriminate|]. intros [? _]. contradiction. }
  apply dec_stable in H1. subst r1.
  destruct (nvml_DeviceGetName g d) as [nm r2].
  destruct (nvml_DeviceGetPowerManagementMode g d) as [m r3]. simpl.
  destruct (decide (r3 <> SUCCESS)) as [H3|H3].
  { simpl. split; [discriminate|]. intros (_ & ? & _). contradiction. }
  apply dec_stable in H3. subst r3.
  destruct (decide (m = FEATURE_ENABLED)) as [->|Hm].
  2: { rewrite bool_decide_eq_false_2 by done. simpl.
       split; [|done]. intros _. repeat split; try done. }
  rewrite bool_decide_eq_true_2 by done. simpl.
  destruct (nvml_DeviceGetPowerManagementLimit g d) as [c r4]. simpl.
  destruct (decide (r4 <> SUCCESS)) as [H4|H4].
  { simpl. split; [discriminate|]. intros (_ & _ & H). by destruct H. }
  apply dec_stable in H4. subst r4.
  destruct (nvml_DeviceGetPowerManagementLimitConstraints g d) as [[lo hi] r5].
  simpl. destruct (decide (r5 <> SUCCESS)) as [H5|H5].
  { simpl. split; [discriminate|]. intros (_ & _ & H). by destruct H. }
  apply dec_stable in H5. subst r5.
  destruct (nvml_DeviceGetPowerUsage g d) as [p r6].
  destruct (decide (r6 = SUCCESS)); simpl; split; auto.
Qed.

(** X5: a record that [getGPUInfo] returns without error for a device whose
    power management is not enabled has its flag unset and all four power
    fields zero, whatever the limit, constraint and usage reads would
    answer. *)
Theorem getGPUInfo_unsupported_zero_fields {G : Gateway} (g : Session)
    index info :
  getGPUInfo g index = (info, None) ->
  Supported info = false ->
  fst (nvml_DeviceGetPowerManagementMode g
         (fst (nvml_DeviceGetHandleByIndex g index))) <> FEATURE_ENABLED /\
  Index info = index /\
  PowerLimit info = 0 /\ MinLimit info = 0 /\ MaxLimit info = 0 /\
  PowerUsage info = 0.
Proof.
  unfold getGPUInfo.
  destruct (nvml_DeviceGetHandleByIndex g index) as [d r1]. simpl.
  destruct (decide (r1 <> SUCCESS)); [discriminate|].
  destruct (nvml_DeviceGetName g d) as [nm r2].
  destruct (nvml_DeviceGetPowerManagementMode g d) as [m r3]. simpl.
  destruct (decide (r3 <> SUCCESS)); [discriminate|].
  destruct (decide (m = FEATURE_ENABLED)) as [->|Hm].
  - rewrite bool_decide_eq_true_2 by done. simpl.
    destruct (nvml_DeviceGetPowerManagementLimit g d) as [c r4].
    destruct (decide (r4 <> SUCCESS)); [discriminate|].
    destruct (nvml_DeviceGetPowerManagementLimitConstraints g d)
      as [[lo hi] r5].
    destruct (decide (r5 <> SUCCESS)); [discriminate|].
    destruct (nvml_DeviceGetPowerUsage g d) as [p r6].
    destruct (decide (r6 = SUCCESS)); intros [= <-]; discriminate.
  - rewrite bool_decide_eq_false_2 by done. simpl.
    intros [= <-] _. repeat split; done.
Qed.

Lemma getGPUInfo_unsupported_zero_fields_witness :
  let info := mkGPUInfo 0 "Tesla" 0 0 0 0 false in
  Index info = 0 /\ PowerLimit info = 0 /\ MinLimit info = 0 /\
  MaxLimit info = 0 /\ PowerUsage info = 0.
Proof.
  intros info.
  exact (proj2 (getGPUInfo_unsupported_zero_fields
                  (hw (mock_world [no_power_mgmt])) 0 info eq_refl eq_refl)).
Defined.

(** ** The read routes *)

Lemma initNVML_frame {G : Gateway} (s : World) :
  writes (snd (initNVML s)) = writes s /\ calls (snd (initNVML s)) = calls s.
Proof.
  unfold initNVML. destruct (nvml_Init (hw s)) as [r1 g].
  destruct (decide (r1 <> SUCCESS)); [done|]. simpl.
  destruct (nvml_DeviceGetCount g) as [count r2].
  destruct (decide (r2 <> SUCCESS)); [done|]. simpl.
  destruct (refresh_loop_frame (Z.to_nat count) 0
    (set_gpuCache (replicate (Z.to_nat count) GPUInfo_zero) (set_hw g s)))
    as (_ & -> & -> & _). done.
Qed.

Lemma initNVML_length {G : Gateway} (s : World) :
  fst (initNVML s) = None ->
  length (gpuCache (snd (initNVML s)))
    = Z.to_nat (fst (nvml_DeviceGetCount (snd (nvml_Init (hw s))))).
Proof.
  intros Hok. destruct (initNVML_None s Hok) as [H1 H2].
  destruct (nvml_Init (hw s)) as [r1 g] eqn:Ei. simpl in *. subst r1.
  destruct (nvml_DeviceGetCount g) as [count r2] eqn:Ec. simpl in *. subst r2.
  rewrite (initNVML_ok s g count Ei Ec). simpl.
  destruct (refresh_loop_frame (Z.to_nat count) 0
    (set_gpuCache (replicate (Z.to_nat count) GPUInfo_zero) (set_hw g s)))
    as (_ & _ & _ & ->). simpl. apply length_replicate.
Qed.

Lemma initNVML_Some {G : Gateway} (s : World) e :
  fst (initNVML s) = Some e ->
  fst (nvml_Init (hw s)) <> SUCCESS \/
  snd (nvml_DeviceGetCount (snd (nvml_Init (hw s)))) <> SUCCESS.
Proof.
  unfold initNVML. destruct (nvml_Init (hw s)) as [r1 g]. simpl.
  destruct (decide (r1 <> SUCCESS)); [auto|].
  destruct (nvml_DeviceGetCount g) as [count r2]. simpl.
  destruct (decide (r2 <> SUCCESS)); [auto|]. discriminate.
Qed.

(** X6: after a refresh that returns no error every cache entry is either
    the zero record, its device's read having failed, or the record read
    for the device of that slot, which carries the slot's number as its
    index; so an entry whose flag is set always sits at its own index.  The
    refresh issues no limit write. *)
Theorem cache_entry_after_refresh {G : Gateway} (s : World) (j : nat) info :
  fst (initNVML s) = None ->
  gpuCache (snd (initNVML s)) !! j = Some info ->
  let g := snd (nvml_Init (hw s)) in
  writes (snd (initNVML s)) = writes s /\
  ((info = GPUInfo_zero /\ is_Some (snd (getGPUInfo g (Z.of_nat j)))) \/
   (getGPUInfo g (Z.of_nat j) = (info, None) /\ Index info = Z.of_nat j)) /\
  (Supported info = true -> Index info = Z.of_nat j).
Proof.
  intros Hok Hlook g.
  split; [apply initNVML_frame|].
  assert (Hj : 0 <= Z.of_nat j < fst (nvml_DeviceGetCount g)).
  { apply lookup_lt_Some in Hlook. rewrite (initNVML_length s Hok) in Hlook.
    fold g in Hlook. lia. }
  destruct (initNVML_slot s (Z.of_nat j) Hok Hj) as (_ & Hslot & _).
  fold g in Hslot. rewrite Nat2Z.id, Hlook in Hslot. injection Hslot as ->.
  pose proof (getGPUInfo_Index g (Z.of_nat j)) as Hidx.
  destruct (getGPUInfo g (Z.of_nat j)) as [fresh [e|]]; simpl in *.
  - split; [left; split; [done|by eexists]|]. discriminate.
  - split; [right; done|]. done.
Qed.

Lemma cache_entry_after_refresh_witness :
  let s := two_gpus_one_unreadable in
  writes (snd (initNVML s)) = writes s /\
  ((GPUInfo_zero = GPUInfo_zero /\
    is_Some (snd (getGPUInfo (snd (nvml_Init (hw s))) (Z.of_nat 1)))) \/
   (getGPUInfo (snd (nvml_Init (hw s))) (Z.of_nat 1) = (GPUInfo_zero, None) /\
    Index GPUInfo_zero = Z.of_nat 1)) /\
  (Supported GPUInfo_zero = true -> Index GPUInfo_zero = Z.of_nat 1).
Proof.
  intros s.
  exact (cache_entry_after_refresh s 1%nat GPUInfo_zero eq_refl eq_refl).
Defined.

(** X7: GET /gpus answers 500 exactly when [nvml.Init] or the device-count
    query fails, and 200 otherwise; the 200 body is the new cache, one
    record per device, slot [i] holding the record read for device [i] or
    the zero record when that read failed.  No limit write is issued. *)
Theorem getGPUsHandler_answers {G : Gateway} (s : World) :
  let init := nvml_Init (hw s) in
  let count := nvml_DeviceGetCount (snd init) in
  writes (snd (getGPUsHandler s)) = writes s /\
  (rstatus (fst (getGPUsHandler s)) = 500 <->
     fst init <> SUCCESS \/ snd count <> SUCCESS) /\
  (rstatus (fst (getGPUsHandler s)) <> 500 ->
   exists l,
     fst (getGPUsHandler s) = mkReadResponse 200 (AllGPUs l) /\
     l = gpuCache (snd (getGPUsHandler s)) /\
     length l = Z.to_nat (fst count) /\
     forall i, 0 <= i < fst count ->
       l !! Z.to_nat i =
         Some (match snd (getGPUInfo (snd init) i) with
               | None => fst (getGPUInfo (snd init) i)
               | Some _ => GPUInfo_zero
               end)).
Proof.
  intros init count. unfold getGPUsHandler.
  pose proof (initNVML_frame s) as [Hw _].
  pose proof (initNVML_length s) as Hlen.
  pose proof (fun i => initNVML_slot s i) as Hslot.
  pose proof (initNVML_None s) as Hnone.
  pose proof (initNVML_Some s) as Hsome.
  destruct (initNVML s) as [[e|] s'] eqn:E; simpl in *.
  - split; [exact Hw|]. split; [|done].
    split; [intros _; by apply (Hsome e)|done].
  - split; [exact Hw|]. destruct (Hnone eq_refl) as [H1 H2]. split.
    + split; [discriminate|]. intros [?|?]; contradiction.
    + intros _. exists (gpuCache s'). repeat split; [by apply Hlen|].
      intros i Hi. by destruct (Hslot i eq_refl Hi) as (_ & ? & _).
Qed.

(** X8: GET /gpus/{index}.  A text that [Atoi] rejects is answered 400
    before anything is refreshed.  Otherwise the cache is refreshed; a
    failed refresh is answered 500; after a successful one an index outside
    [0, count) is answered 404 and an index inside is answered 200 with the
    record read for that device, or with the zero record, whose index is 0,
    when that read failed. *)
Theorem getGPUHandler_answers {G : Gateway} (s : World) indexStr :
  let g := snd (nvml_Init (hw s)) in
  let count := fst (nvml_DeviceGetCount g) in
  writes (snd (getGPUHandler indexStr s)) = writes s /\
  (Atoi indexStr = None ->
   getGPUHandler indexStr s = (mkReadResponse 400 InvalidGPUIndex, s)) /\
  (forall index e,
     Atoi indexStr = Some index -> fst (initNVML s) = Some e ->
     fst (getGPUHandler indexStr s) = mkReadResponse 500 (RefreshError e)) /\
  (forall index,
     Atoi indexStr = Some index -> fst (initNVML s) = None ->
     fst (getGPUHandler indexStr s) =
       if decide (0 <= index /\ index < count)
       then mkReadResponse 200
              (OneGPU (match snd (getGPUInfo g index) with
                       | None => fst (getGPUInfo g index)
                       | Some _ => GPUInfo_zero
                       end))
       else mkReadResponse 404 IndexOutOfRange).
Proof.
  intros g count. unfold getGPUHandler.
  pose proof (initNVML_frame s) as [Hw _].
  pose proof (initNVML_length s) as Hlen.
  pose proof (fun i => initNVML_slot s i) as Hslot.
  pose proof (nvml_DeviceGetCount_nonneg g) as Hnn. fold count in Hnn.
  destruct (Atoi indexStr) as [index|].
  2: { repeat split; try done; intros; discriminate. }
  destruct (initNVML s) as [[e|] s'] eqn:E; simpl in *.
  - split; [exact Hw|]. split; [discriminate|]. split.
    + by intros ? ? [= <-] [= <-].
    + intros ? _ [=].
  - specialize (Hlen eq_refl). fold g count in Hlen.
    split.
    { destruct (decide (index < 0 \/ index >= Z.of_nat (length (gpuCache s'))));
        [exact Hw|]. by destruct (gpuCache s' !! Z.to_nat index). }
    split; [discriminate|]. split; [intros ? ? _ [=]|].
    intros ? [= <-] _. rewrite Hlen.
    destruct (decide (0 <= index /\ index < count)) as [Hin|Hout].
    + destruct (decide (index < 0 \/ index >= Z.of_nat (Z.to_nat count)));
        [lia|].
      destruct (Hslot index eq_refl Hin) as (_ & -> & _). reflexivity.
    + destruct (decide (index < 0 \/ index >= Z.of_nat (Z.to_nat count)));
        [reflexivity|lia].
Qed.

Lemma getGPUHandler_answers_witness :
  getGPUHandler "x" two_gpus_one_unreadable
    = (mkReadResponse 400 InvalidGPUIndex, two_gpus_one_unreadable) /\
  fst (getGPUHandler "1" two_gpus_one_unreadable)
    = mkReadResponse 200 (OneGPU GPUInfo_zero) /\
  fst (getGPUHandler "2" two_gpus_one_unreadable)
    = mkReadResponse 404 IndexOutOfRange.
Proof.
  split; [|split].
  - exact (proj1 (proj2 (getGPUHandler_answers two_gpus_one_unreadable "x"))
             eq_refl).
  - exact (proj2 (proj2 (proj2
             (getGPUHandler_answers two_gpus_one_unreadable "1")))
             1 eq_refl eq_refl).
  - exact (proj2 (proj2 (proj2
             (getGPUHandler_answers two_gpus_one_unreadable "2")))
             2 eq_refl eq_refl).
Defined.

(** X9: a request whose X-API-Key header differs from the configured key
    is answered 401 on every route, and the handler behind the check does
    not run: the world, driver session included, is left as it was. *)
Theorem serve_rejects_wrong_key {G : Gateway} (config : Config) apiKey
    route (s : World) :
  apiKey <> cfgAPIKey config ->
  serve config apiKey route s = (Unauthorized, s).
Proof.
  intros Hne. unfold serve, apiKeyMiddleware.
  destruct (decide (apiKey <> cfgAPIKey config)); [reflexivity|contradiction].
Qed.

Lemma serve_rejects_wrong_key_witness :
  serve (mkConfig "all" 250 ∅ "secret" 8080 true) "guess"
    (PostPower (Some (req_all 200)) []) one_gpu
    = (Unauthorized, one_gpu).
Proof.
  apply (serve_rejects_wrong_key (mkConfig "all" 250 ∅ "secret" 8080 true)
           "guess" (PostPower (Some (req_all 200)) []) one_gpu).
  discriminate.
Defined.

(** ** The command line and the config file against the API *)

Section Agreement.

Context {G : Gateway}.

Implicit Types (s : World).

Lemma agree_refl s : agree s s.
Proof. by repeat split. Qed.

Lemma agree_log_l s1 s2 e : agree s1 s2 -> agree (log_Printf e s1) s2.
Proof. intros (? & ? & ? & ?). by repeat split. Qed.

Lemma agree_trans s1 s2 s3 : agree s1 s2 -> agree s2 s3 -> agree s1 s3.
Proof.
  intros (? & ? & ? & ?) (? & ? & ? & ?). repeat split; congruence.
Qed.

Lemma agree_sym s1 s2 : agree s1 s2 -> agree s2 s1.
Proof. intros (? & ? & ? & ?). by repeat split. Qed.

(** The setter reads nothing but the driver session: on worlds that agree
    it returns the same pair and leaves worlds that agree. *)
Lemma setPowerLimit_agree s1 s2 index w :
  agree s1 s2 ->
  fst (setPowerLimit index w s1) = fst (setPowerLimit index w s2) /\
  agree (snd (setPowerLimit index w s1)) (snd (setPowerLimit index w s2)).
Proof.
  intros Hag. pose proof Hag as (Hh & Hc & Hw & Hk).
  unfold setPowerLimit. rewrite Hh.
  destruct (nvml_DeviceGetHandleByIndex (hw s2) index) as [d r1].
  destruct (decide (r1 <> SUCCESS)); [done|].
  destruct (nvml_DeviceGetPowerManagementMode (hw s2) d) as [m r2].
  destruct (decide (r2 <> SUCCESS)); [done|].
  destruct (decide (m <> FEATURE_ENABLED)); [done|].
  destruct (nvml_DeviceGetPowerManagementLimitConstraints (hw s2) d)
    as [[lo hi] r3].
  destruct (decide (r3 <> SUCCESS)); [done|].
  destruct (clamp index w lo hi (u32_mul w 1000)) as [v line].
  assert (Hl : forall s, hw (match line with
                             | Some e => log_Printf e s
                             | None => s
                             end) = hw s) by (destruct line; reflexivity).
  rewrite !Hl, Hh.
  destruct (nvml_DeviceSetPowerManagementLimit (hw s2) d v) as [ret g'].
  destruct (decide (ret <> SUCCESS)); (split; [reflexivity|]);
    destruct line; repeat split; simpl; congruence.
Qed.

Lemma call_setPowerLimit_agree s1 s2 index w :
  agree s1 s2 ->
  fst (call_setPowerLimit index w s1) = fst (call_setPowerLimit index w s2) /\
  agree (snd (call_setPowerLimit index w s1))
        (snd (call_setPowerLimit index w s2)).
Proof.
  intros Hag. unfold call_setPowerLimit.
  destruct (setPowerLimit_agree s1 s2 index w Hag) as (Hr & Hh & Hc & Hw & Hk).
  destruct (setPowerLimit index w s1) as [r1 t1].
  destruct (setPowerLimit index w s2) as [r2 t2]. simpl in *. subst r2.
  repeat split; simpl; congruence.
Qed.

Lemma all_loops_agree n : forall i powerLimit acc out s1 s2,
  agree s1 s2 ->
  agree (snd (all_loop n i powerLimit acc s1))
        (snd (cli_all_loop n i powerLimit out s2)).
Proof.
  induction n as [|n IH]; intros i pl acc out s1 s2 Hag; [exact Hag|].
  cbn [all_loop cli_all_loop].
  destruct (call_setPowerLimit_agree s1 s2 i pl Hag) as (Hr & Hag').
  destruct (call_setPowerLimit i pl s1) as [[info1 err1] t1].
  destruct (call_setPowerLimit i pl s2) as [[info2 err2] t2].
  simpl in Hr, Hag'. injection Hr as -> ->.
  destruct err2 as [e|]; apply IH; [by apply agree_log_l|exact Hag'].
Qed.

Lemma manual_loops_agree entries : forall count acc out s1 s2,
  agree s1 s2 ->
  agree (snd (manual_loop entries count acc s1))
        (snd (config_manual_loop entries count out s2)).
Proof.
  induction entries as [|[gpuIndex pl] rest IH];
    intros count acc out s1 s2 Hag; [exact Hag|].
  cbn [manual_loop config_manual_loop].
  destruct (decide (0 <= gpuIndex /\ gpuIndex < count)).
  - destruct (call_setPowerLimit_agree s1 s2 gpuIndex pl Hag) as (Hr & Hag').
    destruct (call_setPowerLimit gpuIndex pl s1) as [[info1 err1] t1].
    destruct (call_setPowerLimit gpuIndex pl s2) as [[info2 err2] t2].
    simpl in Hr, Hag'. injection Hr as -> ->.
    destruct err2 as [e|]; apply IH; [by apply agree_log_l|exact Hag'].
  - apply IH. by apply agree_log_l.
Qed.

End Agreement.

Lemma applyConfigSettings_agree_dispatch {G : Gateway} (config : Config)
    entries count out (s : World) :
  agree (snd (applyConfigSettings config entries count out s))
        (snd (dispatch (request_of_config config) entries count s)).
Proof.
  unfold applyConfigSettings, dispatch, request_of_config. simpl.
  destruct (decide (cfgMode config = "all"%string)).
  - pose proof (all_loops_agree (Z.to_nat count) 0 (cfgPowerLimit config) []
                  (out ++ [PrintSettingAll (cfgPowerLimit config)]) s s
                  (agree_refl s)) as Hag.
    destruct (all_loop _ 0 _ [] s) as [u t]. simpl in *. by apply agree_sym.
  - destruct (decide (cfgMode config = "manual"%string)).
    + pose proof (manual_loops_agree entries count [] out s s (agree_refl s))
        as Hag.
      destruct (manual_loop entries count [] s) as [u t]. simpl in *.
      by apply agree_sym.
    + apply agree_refl.
Qed.

(** X10: [applyConfigSettings] changes the hardware exactly as the API
    dispatch does for a request with the same mode and limits visited in
    the same order: the same calls to [setPowerLimit] with the same
    results, the same writes, the same driver session; with any other mode
    neither touches a device. *)
Theorem applyConfigSettings_same_effect_as_dispatch {G : Gateway}
    (config : Config) entries count out (s : World) :
  agree (snd (applyConfigSettings config entries count out s))
        (snd (dispatch (request_of_config config) entries count s)) /\
  (cfgMode config <> "all"%string -> cfgMode config <> "manual"%string ->
   snd (applyConfigSettings config entries count out s) = s).
Proof.
  split; [apply applyConfigSettings_agree_dispatch|].
  unfold applyConfigSettings. intros H1 H2.
  destruct (decide (cfgMode config = "all"%string)); [contradiction|].
  destruct (decide (cfgMode config = "manual"%string)); [contradiction|].
  reflexivity.
Qed.

(** ** Numbers read from text *)

Lemma digit_of_range c d : digit_of c = Some d -> 0 <= d <= 9.
Proof.
  unfold digit_of.
  destruct (decide (48 <= Z.of_N (N_of_ascii c) /\ Z.of_N (N_of_ascii c) <= 57));
    [|discriminate].
  intros [= <-]. lia.
Qed.

Lemma parse_digits_ge s : forall acc v,
  0 <= acc -> parse_digits s acc = Some v -> acc <= v.
Proof.
  induction s as [|c s IH]; intros acc v Hacc; simpl.
  - intros [= <-]. lia.
  - destruct (digit_of c) as [d|] eqn:Hd; [|discriminate].
    apply digit_of_range in Hd. intros Hp. apply IH in Hp; lia.
Qed.

Lemma ParseUint_range s bitSize v :
  ParseUint s bitSize = Some v -> 0 <= v < 2 ^ bitSize.
Proof.
  unfold ParseUint. destruct s as [|c s]; [discriminate|].
  destruct (parse_digits (String c s) 0) as [u|] eqn:Hp; [|discriminate].
  destruct (decide (u < 2 ^ bitSize)); [|discriminate].
  intros [= <-]. apply parse_digits_ge in Hp; lia.
Qed.

Lemma Atoi_range s v : Atoi s = Some v -> - 2 ^ 63 <= v < 2 ^ 63.
Proof.
  unfold Atoi. destruct s as [|c s]; [discriminate|].
  destruct (decide (c = "+"%char)).
  { destruct (ParseUint s 64) as [u|] eqn:Hp; [|discriminate].
    apply ParseUint_range in Hp.
    destruct (decide (u < 2 ^ 63)); [|discriminate]. intros [= <-]. lia. }
  destruct (decide (c = "-"%char)).
  { destruct (ParseUint s 64) as [u|] eqn:Hp; [|discriminate].
    apply ParseUint_range in Hp.
    destruct (decide (u <= 2 ^ 63)); [|discriminate]. intros [= <-]. lia. }
  destruct (ParseUint (String c s) 64) as [u|] eqn:Hp; [|discriminate].
  apply ParseUint_range in Hp.
  destruct (decide (u < 2 ^ 63)); [|discriminate]. intros [= <-]. lia.
Qed.

(** ** [main] *)

Lemma cli_all_loop_agree_dispatch {G : Gateway} (s : World) w count out :
  agree (snd (cli_all_loop (Z.to_nat count) 0 w out s))
        (snd (dispatch (req_all w) [] count s)).
Proof.
  unfold dispatch, req_all. simpl.
  pose proof (all_loops_agree (Z.to_nat count) 0 w [] out s s (agree_refl s))
    as Hag.
  destruct (all_loop (Z.to_nat count) 0 w [] s) as [u t]. simpl in *.
  by apply agree_sym.
Qed.

Lemma agree_deferred_Shutdown {G : Gateway} (s1 s2 : World) :
  agree s1 s2 -> agree (deferred_Shutdown s1) (deferred_Shutdown s2).
Proof.
  intros (Hh & ? & ? & ?). unfold deferred_Shutdown.
  repeat split; simpl; congruence.
Qed.

(** X11: when [nvml.Init] or the device-count query fails, [main] exits
    with status 1 whatever the arguments and the config are, having called
    [setPowerLimit] for no device and issued no write. *)
Theorem main_startup_failure {G : Gateway} (s : World) args loaded entries
    listen :
  fst (nvml_Init (hw s)) <> SUCCESS \/
  snd (nvml_DeviceGetCount (snd (nvml_Init (hw s)))) <> SUCCESS ->
  fst (fst (main args loaded entries listen s)) = Exited 1 /\
  snd (main args loaded entries listen s) = set_hw (snd (nvml_Init (hw s))) s /\
  writes (snd (main args loaded entries listen s)) = writes s /\
  calls (snd (main args loaded entries listen s)) = calls s.
Proof.
  unfold main. destruct (nvml_Init (hw s)) as [r1 g]. simpl.
  destruct (decide (r1 <> SUCCESS)); [done|].
  destruct (nvml_DeviceGetCount g) as [count r2]. simpl.
  destruct (decide (r2 <> SUCCESS)); [done|].
  intros [?|?]; contradiction.
Qed.

Lemma main_startup_failure_witness :
  let s : World (G := MockGateway) :=
    mkWorld (mkMock (ERROR 9) SUCCESS [healthy "GPU0" 250000 100000 300000])
      [] [] [] [] in
  let listen := fun _ : Z => true in
  fst (fst (main ["200"%string] None [] listen s)) = Exited 1 /\
  snd (main ["200"%string] None [] listen s)
    = set_hw (snd (nvml_Init (hw s))) s /\
  writes (snd (main ["200"%string] None [] listen s)) = writes s /\
  calls (snd (main ["200"%string] None [] listen s)) = calls s.
Proof.
  intros s listen.
  apply (main_startup_failure s ["200"%string] None [] listen).
  left. discriminate.
Defined.

(** X12: [main] with a first argument that does not start with "--gpu".
    If the argument is not a decimal number below 2^32, or is 0, [main]
    exits with status 1 and no device is touched.  Otherwise it returns
    normally after the same calls, writes and session changes as an API
    request in mode "all" with that wattage, followed by the deferred
    [nvml.Shutdown]; further arguments are not looked at. *)
Theorem main_watts_argument {G : Gateway} (s : World) arg rest loaded
    entries listen g count :
  HasPrefix arg "--gpu" = false ->
  nvml_Init (hw s) = (SUCCESS, g) ->
  nvml_DeviceGetCount g = (count, SUCCESS) ->
  (ParseUint arg 32 = None \/ ParseUint arg 32 = Some 0 ->
   fst (fst (main (arg :: rest) loaded entries listen s)) = Exited 1 /\
   snd (main (arg :: rest) loaded entries listen s) = set_hw g s) /\
  (forall w,
     ParseUint arg 32 = Some w -> w <> 0 ->
     fst (fst (main (arg :: rest) loaded entries listen s)) = Returned /\
     agree (snd (main (arg :: rest) loaded entries listen s))
           (deferred_Shutdown
              (snd (dispatch (req_all w) [] count (set_hw g s))))).
Proof.
  intros Hpre Hi Hc. unfold main. rewrite Hi.
  destruct (decide (SUCCESS <> SUCCESS)) as [c|_]; [congruence|].
  simpl. rewrite Hc.
  destruct (decide (SUCCESS <> SUCCESS)) as [c|_]; [congruence|].
  rewrite Hpre. split.
  - intros [->| ->]; [done|].
    destruct (decide (0 = 0)); [done|contradiction].
  - intros w Hw Hne. rewrite Hw.
    destruct (decide (w = 0)); [contradiction|].
    apply ParseUint_range in Hw.
    change u32_modulus with (2 ^ 32). rewrite Z.mod_small by lia.
    pose proof (cli_all_loop_agree_dispatch (set_hw g s) w count
                  [PrintSettingAll w]) as Hag.
    destruct (cli_all_loop (Z.to_nat count) 0 w [PrintSettingAll w] (set_hw g s))
      as [out t].
    cbn [fst snd] in *. split; [reflexivity|].
    by apply agree_deferred_Shutdown.
Qed.

Lemma main_watts_argument_witness :
  let listen := fun _ : Z => true in
  (fst (fst (main ["0"%string; "200"%string] None [] listen
               three_gpus_middle_rejects)) = Exited 1 /\
   snd (main ["0"%string; "200"%string] None [] listen
          three_gpus_middle_rejects) = three_gpus_middle_rejects) /\
  (fst (fst (main ["200"%string; "junk"%string] None [] listen
               three_gpus_middle_rejects)) = Returned /\
   agree (snd (main ["200"%string; "junk"%string] None [] listen
                 three_gpus_middle_rejects))
         (deferred_Shutdown
            (snd (dispatch (req_all 200) [] 3 three_gpus_middle_rejects)))).
Proof.
  intros listen. split.
  - exact (proj1 (main_watts_argument three_gpus_middle_rejects "0"
                    ["200"%string] None [] listen
                    (hw three_gpus_middle_rejects) 3
                    eq_refl eq_refl eq_refl) (or_intror eq_refl)).
  - exact (proj2 (main_watts_argument three_gpus_middle_rejects "200"
                    ["junk"%string] None [] listen
                    (hw three_gpus_middle_rejects) 3
                    eq_refl eq_refl eq_refl) 200 eq_refl ltac:(lia)).
Defined.

Lemma gpu_args_loop_spec {G : Gateway} args : forall count out (s : World),
  exists outs,
    calls (snd (gpu_args_loop args count out s)) = calls s ++ outs /\
    outs.*1 = filter (fun p => 0 <= fst p /\ fst p < count)
                (fst (gpu_requests args)) /\
    fst (fst (gpu_args_loop args count out s)) = snd (gpu_requests args).
Proof.
  induction args as [|arg rest IH]; intros count out s.
  - exists []. simpl. by rewrite app_nil_r.
  - cbn [gpu_args_loop gpu_requests].
    destruct (HasPrefix arg "--gpu"); [|apply IH].
    destruct (parseGPUParam arg) as [[index limit] [e|]].
    { exists []. simpl. by rewrite app_nil_r. }
    cbn [fst snd].
    destruct (decide (0 <= index /\ index < count)) as [Hin|Hout].
    + rewrite filter_cons_True by done.
      destruct (call_setPowerLimit_spec s index limit) as (_ & Hc & _ & _).
      destruct (call_setPowerLimit index limit s) as [[info err] s1].
      simpl in Hc.
      destruct err as [e|].
      * destruct (IH count (out ++ [PrintSetFailed index e]) s1)
          as (outs & Hcs & Ha & Hx).
        exists ((index, limit, (info, Some e)) :: outs).
        rewrite Hcs, Hc, <- app_assoc, fmap_cons, Ha. done.
      * destruct (IH count
            (out ++ [PrintLimitSet (Index info) (Name info) (PowerLimit info)])
            s1) as (outs & Hcs & Ha & Hx).
        exists ((index, limit, (info, None)) :: outs).
        rewrite Hcs, Hc, <- app_assoc, fmap_cons, Ha. done.
    + rewrite filter_cons_False by done. apply IH.
Qed.

(** X13: [main] with "--gpu" arguments calls [setPowerLimit] for the
    (index, limit) pairs of the well-formed "--gpu" arguments that come
    before the first malformed one, in order, leaving out the indices
    outside [0, count), each call on the world the one before it left: the
    writes issued are those of these calls made one after the other, and so
    is the driver session, followed by the deferred [nvml.Shutdown] when
    [main] returns.  A failing call does not stop the later ones and
    arguments without the prefix are passed over.  [main] exits with
    status 1 exactly when there is a malformed "--gpu" argument, the
    earlier ones having been applied. *)
Theorem main_gpu_arguments {G : Gateway} (s : World) arg rest loaded entries
    listen g count :
  HasPrefix arg "--gpu" = true ->
  nvml_Init (hw s) = (SUCCESS, g) ->
  nvml_DeviceGetCount g = (count, SUCCESS) ->
  let pairs := filter (fun p => 0 <= fst p /\ fst p < count)
                 (fst (gpu_requests (arg :: rest))) in
  exists outs,
    calls (snd (main (arg :: rest) loaded entries listen s)) = calls s ++ outs /\
    outs.*1 = pairs /\
    outs = fst (setter_run pairs (set_hw g s)) /\
    writes (snd (main (arg :: rest) loaded entries listen s))
      = writes (snd (setter_run pairs (set_hw g s))) /\
    hw (snd (main (arg :: rest) loaded entries listen s))
      = (if snd (gpu_requests (arg :: rest))
         then hw (snd (setter_run pairs (set_hw g s)))
         else snd (nvml_Shutdown (hw (snd (setter_run pairs (set_hw g s)))))) /\
    fst (fst (main (arg :: rest) loaded entries listen s))
      = if snd (gpu_requests (arg :: rest)) then Exited 1 else Returned.
Proof.
  intros Hpre Hi Hc pairs. unfold main. rewrite Hi.
  destruct (decide (SUCCESS <> SUCCESS)) as [c|_]; [congruence|].
  change (hw (set_hw g s)) with g. rewrite Hc.
  destruct (decide (SUCCESS <> SUCCESS)) as [c|_]; [congruence|].
  rewrite Hpre.
  destruct (gpu_args_loop_spec (arg :: rest) count [] (set_hw g s))
    as (outs & Hcs & Ha & Hx).
  destruct (gpu_args_loop_run (arg :: rest) count [] (set_hw g s) (set_hw g s)
              (same_hardware_refl _)) as (Hrun & Hh & _ & Hw).
  fold pairs in Ha, Hrun, Hh, Hw.
  destruct (gpu_args_loop (arg :: rest) count [] (set_hw g s))
    as [[exited out] t].
  cbn [fst snd] in Hcs, Hx, Hrun, Hh, Hw. rewrite Hcs in Hrun.
  apply app_inv_head in Hrun. simpl calls in Hcs.
  exists outs. rewrite <- Hx.
  destruct exited; cbn [fst snd]; repeat split; try done.
  simpl. by rewrite Hh.
Qed.

Lemma main_gpu_arguments_witness :
  let args := ["--gpu=0:200"; "junk"; "--gpu=9:1"; "--gpu=x"; "--gpu=2:160"]%string in
  let listen := fun _ : Z => true in
  exists outs,
    calls (snd (main args None [] listen three_gpus_middle_rejects)) = outs /\
    outs.*1 = [(0, 200)] /\
    writes (snd (main args None [] listen three_gpus_middle_rejects))
      = [(0%nat, 200000)] /\
    fst (fst (main args None [] listen three_gpus_middle_rejects)) = Exited 1.
Proof.
  intros args listen.
  destruct (main_gpu_arguments three_gpus_middle_rejects "--gpu=0:200"
              ["junk"; "--gpu=9:1"; "--gpu=x"; "--gpu=2:160"]%string None []
              listen (hw three_gpus_middle_rejects) 3 eq_refl eq_refl eq_refl)
    as (outs & Hc & Ha & _ & Hw & _ & Hx).
  exists outs. split; [exact Hc|]. split; [exact Ha|].
  split; [exact (eq_trans Hw eq_refl) | exact Hx].
Defined.

(** X14: [main] without arguments.  Without a config it exits with status 1
    and touches no device.  With one, it first applies the config exactly
    as the API dispatch would apply a request with the same mode and
    limits; then, if the server is not asked for, it returns and the
    deferred [nvml.Shutdown] runs; if the server is asked for without a key
    it exits with status 1, the settings staying applied; with a key it
    refreshes the cache and calls [http.ListenAndServe] on the configured
    port (8080 for port 0): it serves when that call gets to serve, and
    exits with status 1 when the refresh fails or that call returns. *)
Theorem main_config_path {G : Gateway} (s : World) loaded entries listen g
    count :
  nvml_Init (hw s) = (SUCCESS, g) ->
  nvml_DeviceGetCount g = (count, SUCCESS) ->
  (loaded = None ->
   fst (fst (main [] loaded entries listen s)) = Exited 1 /\
   snd (main [] loaded entries listen s) = set_hw g s) /\
  (forall cfg,
     loaded = Some cfg ->
     let applied :=
       snd (applyConfigSettings cfg entries count [PrintApplying] (set_hw g s)) in
     agree applied
       (snd (dispatch (request_of_config cfg) entries count (set_hw g s))) /\
     writes (snd (main [] loaded entries listen s)) = writes applied /\
     calls (snd (main [] loaded entries listen s)) = calls applied /\
     (cfgStartAPIServer cfg = false ->
      snd (main [] loaded entries listen s) = deferred_Shutdown applied) /\
     fst (fst (main [] loaded entries listen s)) =
       if cfgStartAPIServer cfg then
         if decide (cfgAPIKey cfg = ""%string) then Exited 1
         else match fst (initNVML applied) with
              | Some _ => Exited 1
              | None =>
                  if listen (server_port cfg)
                  then Serving cfg (server_port cfg)
                  else Exited 1
              end
       else Returned).
Proof.
  intros Hi Hc. unfold main. rewrite Hi.
  destruct (decide (SUCCESS <> SUCCESS)) as [c|_]; [congruence|].
  simpl hw. rewrite Hc.
  destruct (decide (SUCCESS <> SUCCESS)) as [c|_]; [congruence|].
  split; [by intros ->|].
  intros cfg ->.
  split; [apply applyConfigSettings_agree_dispatch|].
  destruct (applyConfigSettings cfg entries count [PrintApplying] (set_hw g s))
    as [out t].
  cbn [snd].
  destruct (cfgStartAPIServer cfg); [|done].
  destruct (decide (cfgAPIKey cfg = ""%string)); [done|].
  pose proof (initNVML_frame t) as [Hw Hk].
  destruct (initNVML t) as [[e|] t']; [simpl in *; done|].
  destruct (listen (server_port cfg)); simpl in *; done.
Qed.

Lemma main_config_path_witness :
  fst (fst (main [] (Some server_config) [] (fun _ => true) one_gpu))
    = Serving server_config 8080 /\
  fst (fst (main [] (Some server_config) [] (fun port => port <? 8080) one_gpu))
    = Exited 1 /\
  writes (snd (main [] (Some server_config) [] (fun _ => true) one_gpu))
    = [(0%nat, 200000)].
Proof.
  destruct (proj2 (main_config_path one_gpu (Some server_config) []
                     (fun _ => true) (hw one_gpu) 1 eq_refl eq_refl)
              server_config eq_refl)
    as (_ & Hw & _ & _ & Hout).
  destruct (proj2 (main_config_path one_gpu (Some server_config) []
                     (fun port => port <? 8080) (hw one_gpu) 1 eq_refl eq_refl)
              server_config eq_refl)
    as (_ & _ & _ & _ & Hout').
  split; [exact Hout|]. split; [exact Hout' | exact Hw].
Defined.

(** X15: whenever [main] ends up serving, it was started without
    arguments from a config that asks for the server and has a non-empty
    key, the port is not 0 and [http.ListenAndServe] got to serve on it,
    and the server answers 401 to every request that carries no X-API-Key
    header, on every route, without running the handler. *)
Theorem main_server_requires_key {G : Gateway} (s : World) args loaded
    entries listen config port :
  fst (fst (main args loaded entries listen s)) = Serving config port ->
  args = [] /\ loaded = Some config /\
  cfgStartAPIServer config = true /\ cfgAPIKey config <> ""%string /\
  port = server_port config /\ port <> 0 /\ listen port = true /\
  forall route (t : World), serve config "" route t = (Unauthorized, t).
Proof.
  unfold main. destruct (nvml_Init (hw s)) as [r1 g].
  destruct (decide (r1 <> SUCCESS)); [discriminate|].
  simpl hw. destruct (nvml_DeviceGetCount g) as [count r2].
  destruct (decide (r2 <> SUCCESS)); [discriminate|].
  destruct args as [|arg rest].
  2: { destruct (HasPrefix arg "--gpu").
       - destruct (gpu_args_loop (arg :: rest) count [] (set_hw g s))
           as [[[|] out] t]; discriminate.
       - destruct (ParseUint arg 32) as [w|]; [|discriminate].
         destruct (decide (w = 0)); [discriminate|].
         destruct (cli_all_loop _ _ _ _ _); discriminate. }
  destruct loaded as [cfg|]; [|discriminate].
  destruct (applyConfigSettings cfg entries count [PrintApplying] (set_hw g s))
    as [out t].
  destruct (cfgStartAPIServer cfg) eqn:Hstart; [|discriminate].
  destruct (decide (cfgAPIKey cfg = ""%string)) as [|Hkey]; [discriminate|].
  destruct (initNVML t) as [[e|] t']; [discriminate|].
  destruct (listen (server_port cfg)) eqn:Hlisten; [|discriminate].
  simpl. intros [= <- <-].
  repeat split; try done.
  - unfold server_port. destruct (decide (cfgAPIPort cfg = 0)); lia.
  - intros route t0. unfold serve, apiKeyMiddleware.
    destruct (decide (""%string <> cfgAPIKey cfg)); [reflexivity|].
    exfalso. apply Hkey. symmetry. by apply dec_stable.
Qed.

Lemma main_server_requires_key_witness :
  cfgAPIKey server_config <> ""%string /\
  serve server_config "" (PostPower (Some (req_all 200)) []) one_gpu
    = (Unauthorized, one_gpu).
Proof.
  destruct (main_server_requires_key one_gpu [] (Some server_config) []
              (fun _ => true) server_config 8080 eq_refl)
    as (_ & _ & _ & Hkey & _ & _ & _ & Hserve).
  split; [exact Hkey|]. apply Hserve.
Defined.

(** ** [parseGPUParam] *)

Lemma In_string_app c (a b : string) :
  In c (String.list_ascii_of_string (a +:+ b)) <->
  In c (String.list_ascii_of_string a) \/ In c (String.list_ascii_of_string b).
Proof.
  induction a as [|x a IH]; simpl; [tauto|]. rewrite IH. tauto.
Qed.

Lemma Split_no_sep s sep :
  ~ In sep (String.list_ascii_of_string s) -> Split s sep = [s].
Proof.
  induction s as [|c s IH]; simpl; [reflexivity|]. intros Hn.
  destruct (decide (c = sep)) as [->|Hc]; [tauto|].
  rewrite IH by tauto. reflexivity.
Qed.

Lemma Split_at_first a b sep :
  ~ In sep (String.list_ascii_of_string a) ->
  Split (a +:+ String sep b) sep = a :: Split b sep.
Proof.
  induction a as [|c a IH]; simpl; intros Hn.
  - destruct (decide (sep = sep)); [reflexivity|contradiction].
  - destruct (decide (c = sep)) as [->|Hc]; [tauto|].
    rewrite IH by tauto. reflexivity.
Qed.

(** The pieces contain no separator, and joining them with the separator
    gives the text back. *)
Lemma Split_inv s : forall sep piece pieces,
  Split s sep = piece :: pieces ->
  ~ In sep (String.list_ascii_of_string piece) /\
  (pieces = [] -> s = piece) /\
  (forall q qs, pieces = q :: qs ->
     exists b, s = piece +:+ String sep b /\ Split b sep = q :: qs).
Proof.
  induction s as [|c s IH]; intros sep piece pieces; simpl.
  - intros [= <- <-]. split; [simpl; tauto|]. split; [done|]. intros ? ? [=].
  - destruct (decide (c = sep)) as [->|Hc].
    + intros [= <- <-]. split; [simpl; tauto|]. split.
      * destruct (Split s sep) eqn:E; [|discriminate].
        destruct s; simpl in E; [discriminate|].
        destruct (decide (a = sep)); [discriminate|].
        destruct (Split s sep); discriminate.
      * intros q qs Hq. exists s. by rewrite Hq.
    + destruct (Split s sep) as [|p ps] eqn:E.
      * destruct s; simpl in E; [discriminate|].
        destruct (decide (a = sep)); [discriminate|].
        destruct (Split s sep); discriminate.
      * intros [= <- <-]. destruct (IH sep p ps E) as (Hn & Hone & Hmore).
        split; [simpl; intros [?|?]; [congruence|tauto]|]. split.
        -- intros Hps. by rewrite (Hone Hps).
        -- intros q qs Hq. destruct (Hmore q qs Hq) as (b & -> & Hb).
           by exists b.
Qed.

Lemma Split_two s sep p0 p1 :
  Split s sep = [p0; p1] ->
  s = p0 +:+ String sep p1 /\
  ~ In sep (String.list_ascii_of_string p0) /\ ~ In sep (String.list_ascii_of_string p1).
Proof.
  intros Hs. destruct (Split_inv s sep p0 [p1] Hs) as (Hn0 & _ & Hmore).
  destruct (Hmore p1 [] eq_refl) as (b & -> & Hb).
  destruct (Split_inv b sep p1 [] Hb) as (Hn1 & Hone & _).
  by rewrite (Hone eq_refl).
Qed.

Lemma parse_digits_chars s : forall acc v c,
  parse_digits s acc = Some v ->
  In c (String.list_ascii_of_string s) -> is_Some (digit_of c).
Proof.
  induction s as [|x s IH]; intros acc v c; simpl; [tauto|].
  destruct (digit_of x) as [d|] eqn:Hd; [|discriminate].
  intros Hp [<-|Hin]; [by rewrite Hd|by eapply IH].
Qed.

Lemma ParseUint_chars s bitSize v c :
  ParseUint s bitSize = Some v ->
  In c (String.list_ascii_of_string s) -> is_Some (digit_of c).
Proof.
  unfold ParseUint. destruct s as [|x s]; [discriminate|].
  destruct (parse_digits (String x s) 0) as [u|] eqn:Hp; [|discriminate].
  intros _. by eapply parse_digits_chars.
Qed.

Lemma Atoi_chars s v c :
  Atoi s = Some v ->
  In c (String.list_ascii_of_string s) ->
  is_Some (digit_of c) \/ c = "+"%char \/ c = "-"%char.
Proof.
  unfold Atoi. destruct s as [|x s]; [discriminate|].
  destruct (decide (x = "+"%char)) as [->|Hp].
  { destruct (ParseUint s 64) as [u|] eqn:Hu; [|discriminate].
    intros _ [<-|Hin]; [tauto|]. left. by eapply ParseUint_chars. }
  destruct (decide (x = "-"%char)) as [->|Hm].
  { destruct (ParseUint s 64) as [u|] eqn:Hu; [|discriminate].
    intros _ [<-|Hin]; [tauto|]. left. by eapply ParseUint_chars. }
  destruct (ParseUint (String x s) 64) as [u|] eqn:Hu; [|discriminate].
  intros _ Hin. left. by eapply ParseUint_chars.
Qed.

Lemma Atoi_no_separator s v :
  Atoi s = Some v ->
  ~ In "="%char (String.list_ascii_of_string s) /\
  ~ In ":"%char (String.list_ascii_of_string s).
Proof.
  intros Ha. split; intros Hin;
    destruct (Atoi_chars s v _ Ha Hin) as [[d Hd]|[?|?]];
    try discriminate; vm_compute in Hd; discriminate.
Qed.

Lemma ParseUint_no_separator s bitSize v :
  ParseUint s bitSize = Some v ->
  ~ In "="%char (String.list_ascii_of_string s) /\
  ~ In ":"%char (String.list_ascii_of_string s).
Proof.
  intros Hp. split; intros Hin;
    destruct (ParseUint_chars s bitSize v _ Hp Hin) as [d Hd];
    vm_compute in Hd; discriminate.
Qed.

(** X16: [parseGPUParam] accepts exactly the texts name=I:L in which name
    starts with "--gpu" and contains no "=", I is an integer that [Atoi]
    reads and L a decimal number below 2^32; it then returns those two
    numbers.  So "--gpu-anything=0:200" is accepted, and so is a negative
    index. *)
Theorem parseGPUParam_accepts_iff param index limit :
  parseGPUParam param = (index, limit, None) <->
  exists name itext ltext,
    param = name +:+ String "="%char (itext +:+ String ":"%char ltext) /\
    HasPrefix name "--gpu" = true /\
    ~ In "="%char (String.list_ascii_of_string name) /\
    Atoi itext = Some index /\
    ParseUint ltext 32 = Some limit.
Proof.
  unfold parseGPUParam. split.
  - destruct (Split param "="%char) as [|p0 [|p1 [|p2 ps]]] eqn:Es;
      try discriminate.
    destruct (HasPrefix p0 "--gpu") eqn:Hpre; [|discriminate]. simpl.
    destruct (Split p1 ":"%char) as [|g0 [|g1 [|g2 gs]]] eqn:Eg;
      try discriminate.
    destruct (Atoi g0) as [i|] eqn:Ha; [|discriminate].
    destruct (ParseUint g1 32) as [l|] eqn:Hl; [|discriminate].
    intros [= <- <-].
    apply Split_two in Es as (-> & Hn0 & _).
    apply Split_two in Eg as (-> & _ & _).
    exists p0, g0, g1. pose proof (ParseUint_range _ _ _ Hl) as Hr.
    change u32_modulus with (2 ^ 32). rewrite Z.mod_small by lia. auto.
  - intros (name & itext & ltext & -> & Hpre & Hn & Ha & Hl).
    destruct (Atoi_no_separator _ _ Ha) as [Hie Hic].
    destruct (ParseUint_no_separator _ _ _ Hl) as [Hle Hlc].
    rewrite Split_at_first by done.
    rewrite Split_no_sep.
    2: { rewrite In_string_app. simpl. intros [?|[?|?]];
           [tauto|discriminate|tauto]. }
    rewrite Hpre. simpl.
    rewrite Split_at_first by done. rewrite Split_no_sep by done.
    rewrite Ha, Hl. pose proof (ParseUint_range _ _ _ Hl) as Hr.
    change u32_modulus with (2 ^ 32). by rewrite Z.mod_small by lia.
Qed.

Lemma parseGPUParam_success param index limit :
  parseGPUParam param = (index, limit, None) ->
  exists name itext ltext,
    param = name +:+ String "="%char (itext +:+ String ":"%char ltext) /\
    Atoi itext = Some index /\
    ParseUint ltext 32 = Some limit.
Proof.
  unfold parseGPUParam.
  destruct (Split param "="%char) as [|p0 [|p1 [|p2 ps]]] eqn:Es;
    try discriminate.
  destruct (HasPrefix p0 "--gpu") eqn:Hpre; [|discriminate]. simpl.
  destruct (Split p1 ":"%char) as [|g0 [|g1 [|g2 gs]]] eqn:Eg;
    try discriminate.
  destruct (Atoi g0) as [i|] eqn:Ha; [|discriminate].
  destruct (ParseUint g1 32) as [l|] eqn:Hl; [|discriminate].
  intros [= <- <-].
  apply Split_two in Es as (-> & _ & _).
  apply Split_two in Eg as (-> & _ & _).
  exists p0, g0, g1. pose proof (ParseUint_range _ _ _ Hl) as Hr.
  change u32_modulus with (2 ^ 32). rewrite Z.mod_small by lia. auto.
Qed.

(** X17: whenever [parseGPUParam] returns an error it returns index -1 and
    limit 0 with it; whenever it returns none, the text has the form
    name=I:L, the index returned is the number [Atoi] reads from I and fits
    a 64-bit [int], and the limit returned is exactly the number
    [ParseUint] reads from L, which lies in [0, 2^32): the conversion
    [uint32(limit)] has lost nothing. *)
Theorem parseGPUParam_result_shape param :
  (is_Some (snd (parseGPUParam param)) ->
   fst (parseGPUParam param) = (-1, 0)) /\
  (snd (parseGPUParam param) = None ->
   exists name itext ltext,
     param = name +:+ String "="%char (itext +:+ String ":"%char ltext) /\
     Atoi itext = Some (fst (fst (parseGPUParam param))) /\
     ParseUint ltext 32 = Some (snd (fst (parseGPUParam param))) /\
     - 2 ^ 63 <= fst (fst (parseGPUParam param)) < 2 ^ 63 /\
     0 <= snd (fst (parseGPUParam param)) < 2 ^ 32).
Proof.
  split.
  - unfold parseGPUParam.
    destruct (Split param "="%char) as [|p0 [|p1 [|p2 ps]]]; try done.
    destruct (HasPrefix p0 "--gpu"); simpl; [|done].
    destruct (Split p1 ":"%char) as [|g0 [|g1 [|g2 gs]]]; try done.
    destruct (Atoi g0) as [i|]; [|done].
    destruct (ParseUint g1 32) as [l|]; [|done].
    simpl. intros [x Hx]. discriminate.
  - destruct (parseGPUParam param) as [[index limit] err] eqn:E. simpl.
    intros ->.
    destruct (parseGPUParam_success param index limit E)
      as (name & itext & ltext & Hp & Ha & Hl).
    exists name, itext, ltext.
    pose proof (ParseUint_range _ _ _ Hl). pose proof (Atoi_range _ _ Ha).
    auto.
Qed.

(** ** Mode "all" from end to end on the mock gateway *)

Lemma clamp_value_index i j w lo hi v :
  fst (clamp i w lo hi v) = fst (clamp j w lo hi v).
Proof.
  unfold clamp. destruct (decide (v < lo)); [reflexivity|].
  destruct (decide (v > hi)); reflexivity.
Qed.

Lemma mock_lookup_middle (m : Mock) done dev todo :
  mk_devices m = done ++ dev :: todo ->
  mk_devices m !! Z.to_nat (Z.of_nat (length done)) = Some dev.
Proof. intros ->. rewrite Nat2Z.id. by apply list_lookup_middle. Qed.

(** One call of the setter for an accepting device of the mock: the device
    now stores the clamped value and the call returns, without error, a
    record with that value in watts. *)
Lemma setPowerLimit_mock_accepting (s : World (G := MockGateway))
    done dev todo w :
  mk_devices (hw s) = done ++ dev :: todo ->
  accepting dev ->
  let i := Z.of_nat (length done) in
  let s' := snd (setPowerLimit i w s) in
  hw s' = mkMock (mk_init (hw s)) (mk_count (hw s))
            (done ++ with_limit dev (target_limit dev w) :: todo) /\
  snd (fst (setPowerLimit i w s)) = None /\
  Index (fst (fst (setPowerLimit i w s))) = i /\
  PowerLimit (fst (fst (setPowerLimit i w s))) = target_limit dev w / 1000.
Proof.
  intros Hdevs (Hh & Hm & Hl & Hc & Hs) i s'.
  pose proof (mock_lookup_middle (hw s) done dev todo Hdevs) as Hlook.
  fold i in Hlook.
  destruct (md_constraints dev) as [[lo hi] rc] eqn:Econ. simpl in Hc. subst rc.
  assert (Hhandle : nvml_DeviceGetHandleByIndex (hw s) i = (Z.to_nat i, SUCCESS)).
  { simpl. unfold mock_handle, mock_read.
    destruct (decide (0 <= i)); [|lia]. by rewrite Hlook, Hh. }
  assert (Hmode : nvml_DeviceGetPowerManagementMode (hw s) (Z.to_nat i)
                  = (FEATURE_ENABLED, SUCCESS)).
  { simpl. unfold mock_read. by rewrite Hlook. }
  assert (Hcon : nvml_DeviceGetPowerManagementLimitConstraints (hw s) (Z.to_nat i)
                 = (lo, hi, SUCCESS)).
  { simpl. unfold mock_read. by rewrite Hlook. }
  destruct (setPowerLimit_write s i w (Z.to_nat i) lo hi Hhandle Hmode Hcon)
    as (_ & Hhw & _ & Hres).
  assert (Hmw : fst (clamp i w lo hi (u32_mul w 1000)) = target_limit dev w).
  { unfold target_limit. rewrite Econ. apply clamp_value_index. }
  rewrite Hmw in Hhw, Hres.
  assert (Hset : nvml_DeviceSetPowerManagementLimit (hw s) (Z.to_nat i)
                   (target_limit dev w)
                 = (SUCCESS, mkMock (mk_init (hw s)) (mk_count (hw s))
                      (done ++ with_limit dev (target_limit dev w) :: todo))).
  { simpl. unfold mock_set. rewrite Hlook.
    destruct (decide (md_set dev = SUCCESS)); [|contradiction].
    f_equal. f_equal. rewrite Hdevs. unfold i. rewrite Nat2Z.id.
    replace (length done) with (length done + 0)%nat by lia.
    by rewrite insert_app_r. }
  rewrite Hset in Hhw, Hres. simpl in Hhw, Hres.
  destruct (decide (SUCCESS <> SUCCESS)) as [c|_]; [congruence|].
  subst s'. rewrite Hhw. split; [reflexivity|].
  assert (Hget : exists info,
    getGPUInfo (mkMock (mk_init (hw s)) (mk_count (hw s))
                  (done ++ with_limit dev (target_limit dev w) :: todo)) i
      = (info, None) /\
    Index info = i /\ PowerLimit info = target_limit dev w / 1000).
  { unfold getGPUInfo. simpl. unfold mock_handle, mock_read. simpl.
    destruct (decide (0 <= i)); [|lia].
    unfold i at 1 2 3 4 5 6. rewrite Nat2Z.id, !list_lookup_middle by done.
    simpl. rewrite Hh. simpl.
    destruct (md_name dev) as [nm rn]. rewrite Hm. simpl.
    destruct (md_limit dev) as [cur rl]. simpl in Hl. subst rl. simpl.
    rewrite Econ. simpl.
    destruct (md_usage dev) as [p ru].
    destruct (decide (ru = SUCCESS)); eexists; repeat split. }
  destruct Hget as (info & Hget & Hi & Hp). by rewrite Hres, Hget.
Qed.

Lemma getGPUInfo_mock_accepting (m : Mock) (i : nat) dev :
  mk_devices m !! i = Some dev ->
  accepting dev ->
  exists info,
    getGPUInfo (G := MockGateway) m (Z.of_nat i) = (info, None) /\
    Index info = Z.of_nat i /\ Supported info = true /\
    PowerLimit info = fst (md_limit dev) / 1000.
Proof.
  intros Hlook (Hh & Hm & Hl & Hc & Hs).
  unfold getGPUInfo. simpl. unfold mock_handle, mock_read.
  destruct (decide (0 <= Z.of_nat i)); [|lia].
  rewrite Nat2Z.id, Hlook, Hh. simpl. rewrite ?Hlook.
  destruct (md_name dev) as [nm rn]. rewrite Hm. simpl. rewrite ?Hlook.
  destruct (md_limit dev) as [cur rl]. simpl in Hl. subst rl. simpl.
  rewrite ?Hlook.
  destruct (md_constraints dev) as [[lo hi] rc]. simpl in Hc. subst rc. simpl.
  rewrite ?Hlook.
  destruct (md_usage dev) as [p ru].
  destruct (decide (ru = SUCCESS)); eexists; repeat split.
Qed.

Lemma all_loop_mock_accepting todo :
  forall done acc (s : World (G := MockGateway)) w,
    mk_devices (hw s) = done ++ todo ->
    Forall accepting todo ->
    let r := all_loop (length todo) (Z.of_nat (length done)) w acc s in
    hw (snd r) = mkMock (mk_init (hw s)) (mk_count (hw s))
                   (done ++ ((fun dev => with_limit dev (target_limit dev w))
                               <$> todo)) /\
    exists recs,
      fst r = acc ++ recs /\
      Index <$> recs = seqZ (Z.of_nat (length done)) (Z.of_nat (length todo)) /\
      PowerLimit <$> recs = (fun dev => target_limit dev w / 1000) <$> todo.
Proof.
  induction todo as [|dev todo IH]; intros done acc s w Hdevs Hall r.
  - subst r. simpl. rewrite app_nil_r in *. split.
    + destruct (hw s); simpl in *. by subst.
    + exists []. by rewrite app_nil_r.
  - apply Forall_cons in Hall as [Hdev Hall].
    destruct (setPowerLimit_mock_accepting s done dev todo w Hdevs Hdev)
      as (Hhw & Hok & Hidx & Hpl).
    subst r. cbn [all_loop length]. unfold call_setPowerLimit.
    destruct (setPowerLimit (Z.of_nat (length done)) w s) as [[info err] s1].
    simpl in Hhw, Hok, Hidx, Hpl. subst err.
    set (s2 := note_call (Z.of_nat (length done)) w (info, None) s1).
    assert (Hdevs2 : mk_devices (hw s2)
                     = (done ++ [with_limit dev (target_limit dev w)]) ++ todo)
      by (simpl; rewrite Hhw; simpl; by rewrite <- app_assoc).
    specialize (IH (done ++ [with_limit dev (target_limit dev w)])
                  (acc ++ [info]) s2 w Hdevs2 Hall).
    rewrite length_app in IH. simpl length in IH.
    replace (Z.of_nat (length done + 1)) with (Z.of_nat (length done) + 1)
      in IH by lia.
    destruct IH as (Hhw' & recs & Hres & Hi & Hp).
    split.
    + rewrite Hhw'. simpl. rewrite Hhw. simpl. by rewrite <- app_assoc.
    + exists (info :: recs). rewrite Hres, <- app_assoc. split; [done|].
      rewrite !fmap_cons, Hi, Hp, Hidx, Hpl.
      rewrite (seqZ_cons (Z.of_nat (length done))) by lia.
      split; [|done]. f_equal. f_equal; lia.
Qed.

(** X18: on the mock gateway with every device accepting, the dispatch in
    mode "all" over all devices leaves each device with the clamped value
    of the request as its limit and nothing else changed, and returns one
    record per device, in device order, each with that limit in watts. *)
Theorem all_mode_sets_every_accepting_device (s : World (G := MockGateway)) w :
  Forall accepting (mk_devices (hw s)) ->
  let count := Z.of_nat (length (mk_devices (hw s))) in
  hw (snd (dispatch (req_all w) [] count s))
    = mkMock (mk_init (hw s)) (mk_count (hw s))
        ((fun dev => with_limit dev (target_limit dev w)) <$> mk_devices (hw s)) /\
  exists recs,
    fst (dispatch (req_all w) [] count s) = Some recs /\
    Index <$> recs = seqZ 0 count /\
    PowerLimit <$> recs
      = (fun dev => target_limit dev w / 1000) <$> mk_devices (hw s).
Proof.
  intros Hall count. unfold dispatch, req_all. simpl. subst count.
  rewrite Nat2Z.id.
  destruct (all_loop_mock_accepting (mk_devices (hw s)) [] [] s w eq_refl Hall)
    as (Hhw & recs & Hres & Hi & Hp).
  change (Z.of_nat (length (@nil MockDevice))) with 0 in Hhw, Hres, Hi.
  change ([] ++ recs) with recs in Hres.
  destruct (all_loop (length (mk_devices (hw s))) 0 w [] s) as [u t].
  simpl in *. split; [exact Hhw|]. exists recs. by subst u.
Qed.

Lemma all_mode_sets_every_accepting_device_witness :
  let s := mock_world [healthy "GPU0" 250000 100000 300000;
                       healthy "GPU1" 200000 150000 350000] in
  exists recs,
    fst (dispatch (req_all 120) [] 2 s) = Some recs /\
    Index <$> recs = seqZ 0 2 /\
    PowerLimit <$> recs = [120; 150].
Proof.
  intros s.
  refine (proj2 (all_mode_sets_every_accepting_device s 120 _)).
  repeat constructor.
Defined.

Lemma accepting_with_limit dev mw : accepting dev -> accepting (with_limit dev mw).
Proof. intros (? & ? & ? & ? & ?). by repeat split. Qed.

(** X19: on the mock gateway with [Init] and the count query succeeding and
    every device accepting, POST /power in mode "all" answers 200 with one
    record per device, and the cache it leaves behind shows every device as
    supported, at its own index, with the clamped value of the request as
    its power limit. *)
Theorem post_all_then_cache_shows_new_limits (s : World (G := MockGateway)) w :
  mk_init (hw s) = SUCCESS ->
  mk_count (hw s) = SUCCESS ->
  Forall accepting (mk_devices (hw s)) ->
  let r := setPowerLimitsHandler (Some (req_all w)) [] s in
  (exists recs,
     fst r = mkResponse 200 (UpdatedGPUs recs) /\
     length recs = length (mk_devices (hw s))) /\
  forall (i : nat) dev,
    mk_devices (hw s) !! i = Some dev ->
    exists info,
      gpuCache (snd r) !! i = Some info /\
      Index info = Z.of_nat i /\ Supported info = true /\
      PowerLimit info = target_limit dev w / 1000.
Proof.
  intros Hinit Hcount Hall r. subst r. unfold setPowerLimitsHandler.
  simpl nvml_DeviceGetCount. rewrite Hcount.
  destruct (decide (SUCCESS <> SUCCESS)) as [c|_]; [congruence|].
  unfold dispatch, req_all. simpl. rewrite Nat2Z.id.
  destruct (all_loop_mock_accepting (mk_devices (hw s)) [] [] s w eq_refl Hall)
    as (Hhw & recs & Hres & Hi & Hp).
  change (Z.of_nat (length (@nil MockDevice))) with 0 in Hhw, Hres, Hi.
  change ([] ++ recs) with recs in Hres.
  destruct (all_loop (length (mk_devices (hw s))) 0 w [] s) as [u t].
  simpl in Hhw, Hres. subst u.
  assert (Ei : nvml_Init (hw t) = (SUCCESS, hw t))
    by (simpl; rewrite Hhw; simpl; by rewrite Hinit).
  assert (Ec : nvml_DeviceGetCount (hw t)
               = (Z.of_nat (length (mk_devices (hw s))), SUCCESS))
    by (simpl; rewrite Hhw; simpl; by rewrite length_fmap, Hcount).
  pose proof (initNVML_ok t _ _ Ei Ec) as Hok.
  assert (Hnone : fst (initNVML t) = None) by (by rewrite Hok).
  assert (Hslot : forall i,
    0 <= i < Z.of_nat (length (mk_devices (hw s))) ->
    gpuCache (snd (initNVML t)) !! Z.to_nat i =
      Some (match snd (getGPUInfo (hw t) i) with
            | None => fst (getGPUInfo (hw t) i)
            | Some _ => GPUInfo_zero
            end)).
  { intros i Hi0. destruct (initNVML_slot t i Hnone) as (_ & Hs & _);
      [|exact Hs].
    simpl. rewrite Hhw. simpl. by rewrite length_fmap. }
  destruct (initNVML t) as [[e|] t']; [discriminate|]. simpl in Hslot |- *.
  split.
  - exists recs. split; [reflexivity|].
    rewrite <- (length_fmap Index), Hi, length_seqZ. lia.
  - intros i dev Hlook.
    assert (Hi' : 0 <= Z.of_nat i < Z.of_nat (length (mk_devices (hw s))))
      by (apply lookup_lt_Some in Hlook; lia).
    pose proof (Hslot (Z.of_nat i) Hi') as Hs.
    rewrite Nat2Z.id in Hs.
    destruct (getGPUInfo_mock_accepting (hw t) i
                (with_limit dev (target_limit dev w)))
      as (info & Hget & Hidx & Hsup & Hpl).
    { rewrite Hhw. simpl. by rewrite list_lookup_fmap, Hlook. }
    { apply accepting_with_limit. by eapply Forall_lookup_1. }
    rewrite Hget in Hs. simpl in Hs. exists info. auto.
Qed.

Lemma post_all_then_cache_shows_new_limits_witness :
  let s := mock_world [healthy "GPU0" 250000 100000 300000;
                       healthy "GPU1" 200000 150000 350000] in
  exists info,
    gpuCache (snd (setPowerLimitsHandler (Some (req_all 120)) [] s)) !! 1%nat
      = Some info /\
    Index info = Z.of_nat 1 /\ Supported info = true /\
    PowerLimit info = 150.
Proof.
  intros s.
  refine (proj2 (post_all_then_cache_shows_new_limits s 120 eq_refl eq_refl _)
            1%nat (healthy "GPU1" 200000 150000 350000) eq_refl).
  repeat constructor.
Defined.

(** ** POST /power as a whole *)

(** X20: POST /power answers 400 to a body that does not decode and 500
    when the device count cannot be read, in both cases without touching
    anything.  With mode "all" or "manual" it always answers 200 with the
    records the dispatch collected, however many calls failed; the refresh
    that follows issues no write, and when it fails the failure is only
    logged and the old cache stays. *)
Theorem setPowerLimitsHandler_answers {G : Gateway} (s : World) decoded
    entries :
  let count := nvml_DeviceGetCount (hw s) in
  (decoded = None ->
   setPowerLimitsHandler decoded entries s
     = (mkResponse 400 InvalidRequestFormat, s)) /\
  (forall request,
     decoded = Some request -> snd count <> SUCCESS ->
     setPowerLimitsHandler decoded entries s
       = (mkResponse 500 (CountFailed (snd count)), s)) /\
  (forall request,
     decoded = Some request -> snd count = SUCCESS ->
     Mode request = "all"%string \/ Mode request = "manual"%string ->
     let applied := snd (dispatch request entries (fst count) s) in
     exists recs,
       fst (dispatch request entries (fst count) s) = Some recs /\
       fst (setPowerLimitsHandler decoded entries s)
         = mkResponse 200 (UpdatedGPUs recs) /\
       writes (snd (setPowerLimitsHandler decoded entries s)) = writes applied /\
       calls (snd (setPowerLimitsHandler decoded entries s)) = calls applied /\
       (forall e,
          fst (initNVML applied) = Some e ->
          LogRefreshFailed e
            ∈ logged (snd (setPowerLimitsHandler decoded entries s)) /\
          gpuCache (snd (setPowerLimitsHandler decoded entries s))
            = gpuCache applied)).
Proof.
  intros count. subst count. split; [by intros ->|]. split.
  - intros request -> Hc. unfold setPowerLimitsHandler.
    destruct (nvml_DeviceGetCount (hw s)) as [c r]. simpl in *.
    destruct (decide (r <> SUCCESS)); [reflexivity|contradiction].
  - intros request -> Hc Hmode applied. subst applied.
    unfold setPowerLimitsHandler.
    destruct (nvml_DeviceGetCount (hw s)) as [c r]. simpl in *. subst r.
    destruct (decide (SUCCESS <> SUCCESS)) as [x|_]; [congruence|].
    assert (Hsome : exists recs, fst (dispatch request entries c s) = Some recs).
    { unfold dispatch.
      destruct (decide (Mode request = "all"%string)).
      - destruct (all_loop _ _ _ _ _). by eexists.
      - destruct (decide (Mode request = "manual"%string)); [|tauto].
        destruct (manual_loop _ _ _ _). by eexists. }
    destruct Hsome as [recs Hrecs].
    destruct (dispatch request entries c s) as [updated t]. simpl in *.
    subst updated. exists recs. split; [reflexivity|].
    pose proof (initNVML_frame t) as [Hw Hk].
    assert (Hcache : forall e, fst (initNVML t) = Some e ->
                       gpuCache (snd (initNVML t)) = gpuCache t).
    { intros e. unfold initNVML. destruct (nvml_Init (hw t)) as [r1 g].
      destruct (decide (r1 <> SUCCESS)); [done|]. simpl.
      destruct (nvml_DeviceGetCount g) as [c2 r2].
      destruct (decide (r2 <> SUCCESS)); [done|]. discriminate. }
    destruct (initNVML t) as [[e|] t']; simpl in *.
    + split; [reflexivity|]. split; [exact Hw|]. split; [exact Hk|].
      intros e' [= <-]. split; [|by apply (Hcache e)].
      apply elem_of_app. right. by left.
    + split; [reflexivity|]. split; [exact Hw|]. split; [exact Hk|].
      intros e' [=].
Qed.

(** ** Runs of the theorems above on the example worlds *)

Lemma getGPUsHandler_answers_witness :
  exists l,
    fst (getGPUsHandler two_gpus_one_unreadable)
      = mkReadResponse 200 (AllGPUs l) /\
    l = gpuCache (snd (getGPUsHandler two_gpus_one_unreadable)) /\
    length l = Z.to_nat 2.
Proof.
  destruct (proj2 (proj2 (getGPUsHandler_answers two_gpus_one_unreadable))
              ltac:(discriminate)) as (l & Hr & Hl & Hlen & _).
  exists l. auto.
Defined.

Lemma applyConfigSettings_same_effect_as_dispatch_witness :
  snd (applyConfigSettings (mkConfig "auto" 250 ∅ "" 0 false) [] 3 []
         three_gpus_middle_rejects)
    = three_gpus_middle_rejects.
Proof.
  apply (proj2 (applyConfigSettings_same_effect_as_dispatch
                  (mkConfig "auto" 250 ∅ "" 0 false) [] 3 []
                  three_gpus_middle_rejects)); discriminate.
Defined.

Lemma parseGPUParam_result_shape_witness :
  fst (parseGPUParam "--gpu=1:2=3") = (-1, 0) /\
  exists name itext ltext,
    "--gpu=1:4294967295"%string
      = name +:+ String "="%char (itext +:+ String ":"%char ltext) /\
    Atoi itext = Some 1 /\
    ParseUint ltext 32 = Some 4294967295.
Proof.
  split.
  - apply (proj1 (parseGPUParam_result_shape "--gpu=1:2=3")). by eexists.
  - destruct (proj2 (parseGPUParam_result_shape "--gpu=1:4294967295") eq_refl)
      as (name & itext & ltext & Hp & Ha & Hl & _).
    by exists name, itext, ltext.
Defined.

Lemma setPowerLimitsHandler_answers_witness :
  setPowerLimitsHandler None [] three_gpus_middle_rejects
    = (mkResponse 400 InvalidRequestFormat, three_gpus_middle_rejects) /\
  exists recs,
    fst (setPowerLimitsHandler (Some (req_all 200)) []
           three_gpus_middle_rejects)
      = mkResponse 200 (UpdatedGPUs recs).
Proof.
  split.
  - exact (proj1 (setPowerLimitsHandler_answers three_gpus_middle_rejects
                    None []) eq_refl).
  - destruct (proj2 (proj2 (setPowerLimitsHandler_answers
                              three_gpus_middle_rejects
                              (Some (req_all 200)) []))
                (req_all 200) eq_refl eq_refl (or_introl eq_refl))
      as (recs & _ & Hr & _).
    by exists recs.
Defined.
